(** * Anomalib: the anomaly module's lifecycle hooks and the CSV callback

    A shallow embedding of
      - [src/anomalib/core/model/anomalib_module.py] (class [AnomalibModule]) and
      - [src/anomalib/core/callbacks/save_to_csv.py] (class [SaveToCSVCallback]),
    followed by the properties of the hooks.

    Python dictionaries are finite maps with string keys, exceptions are an
    error type, and the module's attributes are threaded as explicit state. *)

From Stdlib Require Import ZArith QArith.
From stdpp Require Import gmap strings list fin_maps.

Close Scope Q_scope.
Open Scope string_scope.
Open Scope list_scope.

(** ** Exceptions *)

Inductive exn : Type :=
  | NotImplementedError
  | KeyError (key : string)
  | IndexError (msg : string)
  | RuntimeError (msg : string)
  | ValueError (msg : string).

Inductive result (A : Type) : Type :=
  | Ok (a : A)
  | Raise (e : exn).
Arguments Ok {A} a.
Arguments Raise {A} e.

#[export] Instance result_ret : MRet result := fun _ a => Ok a.
#[export] Instance result_bind : MBind result := fun _ _ f r =>
  match r with
  | Ok a => f a
  | Raise e => Raise e
  end.

(** ** Tensors

    A tensor is its element type, its shape and its elements in row-major
    order.  Every element is held by its numeric value, a rational: an
    integer tensor holds integers, a boolean tensor holds 0 and 1.  Rounding
    and NaN of the 32-bit float format are outside the model. *)

Inductive dtype : Type := Float32 | Int64 | Int32 | Bool.

Record Tensor : Type := mkTensor {
  t_dtype : dtype;
  shape : list nat;
  data : list Q
}.

Definition numel (t : Tensor) : nat := foldr Nat.mul 1 (shape t).

(** The representation invariant: a tensor holds [numel] elements. *)
Definition wf (t : Tensor) : Prop := length (data t) = numel t.

(** [t.flatten()] *)
Definition flatten (t : Tensor) : Tensor :=
  {| t_dtype := t_dtype t; shape := [numel t]; data := data t |}.

(** Conversion of one element to a 32-bit integer: the fractional part is
    dropped, and a value outside the 32-bit range wraps around. *)
Definition wrap32 (z : Z) : Z := ((z + 2 ^ 31) mod 2 ^ 32 - 2 ^ 31)%Z.
Definition to_int32 (q : Q) : Q := inject_Z (wrap32 (Z.quot (Qnum q) (Zpos (Qden q)))).

(** [t.int()] *)
Definition int (t : Tensor) : Tensor :=
  {| t_dtype := Int32; shape := shape t; data := map to_int32 (data t) |}.

Definition Qof_bool (b : bool) : Q := if b then 1%Q else 0%Q.

(** [t >= v] for a scalar [v]: the elementwise comparison, a boolean tensor
    of the shape of [t]. *)
Definition ge (t : Tensor) (v : Q) : Tensor :=
  {| t_dtype := Bool; shape := shape t;
     data := map (fun x => Qof_bool (Qle_bool v x)) (data t) |}.

(** [t.shape[0]] *)
Definition shape0 (t : Tensor) : result nat :=
  match shape t with
  | [] => Raise (IndexError "tuple index out of range")
  | n :: _ => Ok n
  end.

(** [t.reshape(n, -1)]: the second dimension is inferred from the number of
    elements; it cannot be inferred when [n] is 0. *)
Definition reshape (t : Tensor) (n : nat) : result Tensor :=
  if (n =? 0)%nat then
    Raise (RuntimeError "cannot reshape: the unspecified dimension is ambiguous or the shape is invalid")
  else if (numel t mod n =? 0)%nat then
    Ok {| t_dtype := t_dtype t; shape := [n; numel t / n]; data := data t |}
  else Raise (RuntimeError "shape is invalid for input size").

Definition qmax (a b : Q) : Q := if Qle_bool a b then b else a.

Definition max_of (l : list Q) : option Q :=
  match l with
  | [] => None
  | x :: l' => Some (fold_left qmax l' x)
  end.

(** The [n] rows of [c] elements of a row-major matrix. *)
Fixpoint rows (n c : nat) (l : list Q) : list (list Q) :=
  match n with
  | O => []
  | S n' => take c l :: rows n' c (drop c l)
  end.

(** [t.max(dim=1).values] of a matrix: the maximum of each row.  A reduction
    over an empty dimension raises. *)
Definition max_dim1 (t : Tensor) : result Tensor :=
  match shape t with
  | [n; c] =>
      match mapM max_of (rows n c (data t)) with
      | Some ms => Ok {| t_dtype := t_dtype t; shape := [n]; data := ms |}
      | None => Raise (IndexError "max(): Expected reduction dim 1 to have non-zero size.")
      end
  | _ => Raise (IndexError "Dimension out of range")
  end.

(** ** Batch outputs: a dictionary from keys to tensors *)

Abbreviation outputs_t := (gmap string Tensor).

(** [key in d] *)
Definition contains (key : string) (d : outputs_t) : bool :=
  match d !! key with Some _ => true | None => false end.

(** [d[key]] *)
Definition getitem (d : outputs_t) (key : string) : result Tensor :=
  match d !! key with
  | Some t => Ok t
  | None => Raise (KeyError key)
  end.

(** [AnomalibModule._post_process]; the dictionary it returns is the
    dictionary after the call (the source updates it in place). *)
Definition _post_process (outputs : outputs_t) : result outputs_t :=
  if negb (contains "pred_scores" outputs) && contains "anomaly_maps" outputs then
    am ← getitem outputs "anomaly_maps";
    n ← shape0 am;
    r ← reshape am n;
    m ← max_dim1 r;
    Ok (<["pred_scores" := m]> outputs)
  else Ok outputs.

(** ** State and exceptions

    A method of an object is a function from the object's state to a result
    (a value or a raised exception) and the state the call leaves behind: an
    exception keeps the assignments made before it was raised. *)

Definition M (S A : Type) : Type := S -> result A * S.

Definition raise {S A : Type} (e : exn) : M S A := fun s => (Raise e, s).
Definition lift {S A : Type} (r : result A) : M S A := fun s => (r, s).
Definition gets {S A : Type} (f : S -> A) : M S A := fun s => (Ok (f s), s).
Definition modify {S : Type} (f : S -> S) : M S unit := fun s => (Ok tt, f s).

#[export] Instance M_ret {S : Type} : MRet (M S) := fun _ a s => (Ok a, s).
#[export] Instance M_bind {S : Type} : MBind (M S) := fun _ _ k m s =>
  match m s with
  | (Ok a, s') => k a s'
  | (Raise e, s') => (Raise e, s')
  end.

(** Run a computation on a part of the state. *)
Definition zoom {S T A : Type} (get : S -> T) (set : T -> S -> S) (m : M T A) : M S A :=
  fun s => let (r, t) := m (get s) in (r, set t s).

(** [for x in l: body(x)] *)
Fixpoint for_each {S A : Type} (l : list A) (body : A -> M S unit) : M S unit :=
  match l with
  | [] => mret tt
  | x :: l' => body x;; for_each l' body
  end.

(** ** Metric aggregators

    The contract the module relies on: an aggregator takes
    [update(prediction, target)] calls. *)

Class Metric (A : Type) : Type := update : Tensor -> Tensor -> A -> A.

Abbreviation pair_t := (Tensor * Tensor)%type.

(** Modelled from the spec: the class [AdaptiveThreshold] of
    [anomalib.core.metrics], which is not among the sources.  It is a metric
    aggregator ([update(prediction, target)] and [compute()]) that also exposes
    a scalar [value]: the configured default until [compute()] replaces it by
    the threshold its criterion chooses for the pairs it was fed. *)
Record AdaptiveThreshold : Type := mkThreshold {
  value : Q;
  fed : list pair_t
}.

#[export] Instance threshold_metric : Metric AdaptiveThreshold := fun preds target a =>
  {| value := value a; fed := fed a ++ [(preds, target)] |}.

Definition set_value (v : Q) (a : AdaptiveThreshold) : AdaptiveThreshold :=
  {| value := v; fed := fed a |}.

(** [MetricCollection([auroc, f1_score], prefix=...)]: the pairs the two
    metrics were fed and the decision threshold of its F1 metric. *)
Record MetricCollection : Type := mkMetrics {
  prefix : string;
  F1_threshold : Q;
  seen : list pair_t
}.

#[export] Instance collection_metric : Metric MetricCollection := fun preds target c =>
  {| prefix := prefix c; F1_threshold := F1_threshold c; seen := seen c ++ [(preds, target)] |}.

Definition set_F1_threshold (v : Q) (c : MetricCollection) : MetricCollection :=
  {| prefix := prefix c; F1_threshold := v; seen := seen c |}.

(** [collection.clone(prefix=...)] *)
Definition clone (p : string) (c : MetricCollection) : MetricCollection :=
  {| prefix := p; F1_threshold := F1_threshold c; seen := seen c |}.

(** ** The module *)

Record AnomalibModule : Type := mkModule {
  task : string;
  adaptive_threshold : bool;
  image_threshold : AdaptiveThreshold;
  pixel_threshold : AdaptiveThreshold;
  image_metrics : MetricCollection;
  pixel_metrics : MetricCollection;
  (** what [log_dict] has received, oldest first *)
  logged : list MetricCollection
}.

Definition set_image_threshold (a : AdaptiveThreshold) (self : AnomalibModule) : AnomalibModule :=
  mkModule (task self) (adaptive_threshold self) a (pixel_threshold self)
           (image_metrics self) (pixel_metrics self) (logged self).
Definition set_pixel_threshold (a : AdaptiveThreshold) (self : AnomalibModule) : AnomalibModule :=
  mkModule (task self) (adaptive_threshold self) (image_threshold self) a
           (image_metrics self) (pixel_metrics self) (logged self).
Definition set_image_metrics (c : MetricCollection) (self : AnomalibModule) : AnomalibModule :=
  mkModule (task self) (adaptive_threshold self) (image_threshold self) (pixel_threshold self)
           c (pixel_metrics self) (logged self).
Definition set_pixel_metrics (c : MetricCollection) (self : AnomalibModule) : AnomalibModule :=
  mkModule (task self) (adaptive_threshold self) (image_threshold self) (pixel_threshold self)
           (image_metrics self) c (logged self).

(** [self.log_dict(metrics)] *)
Definition log_dict (c : MetricCollection) : M AnomalibModule unit :=
  modify (fun self =>
    mkModule (task self) (adaptive_threshold self) (image_threshold self) (pixel_threshold self)
             (image_metrics self) (pixel_metrics self) (logged self ++ [c])).

(** The two aggregators [_collect_outputs] is called with. *)
Definition thresholds (self : AnomalibModule) : AdaptiveThreshold * AdaptiveThreshold :=
  (image_threshold self, pixel_threshold self).
Definition set_thresholds (p : AdaptiveThreshold * AdaptiveThreshold) (self : AnomalibModule)
  : AnomalibModule :=
  set_pixel_threshold (snd p) (set_image_threshold (fst p) self).
Definition metrics (self : AnomalibModule) : MetricCollection * MetricCollection :=
  (image_metrics self, pixel_metrics self).
Definition set_metrics (p : MetricCollection * MetricCollection) (self : AnomalibModule)
  : AnomalibModule :=
  set_pixel_metrics (snd p) (set_image_metrics (fst p) self).

(** [AnomalibModule.__init__]; the F1 metric is built with its default
    decision threshold, one half. *)
Definition __init__ (task : string) (adaptive_threshold : bool)
    (default_image_threshold default_pixel_threshold : Q) : AnomalibModule :=
  let image_metrics := mkMetrics "image_" (1 # 2) [] in
  {| task := task;
     adaptive_threshold := adaptive_threshold;
     image_threshold := mkThreshold default_image_threshold [];
     pixel_threshold := mkThreshold default_pixel_threshold [];
     image_metrics := image_metrics;
     pixel_metrics := clone "pixel_" image_metrics;
     logged := [] |}.

(** [AnomalibModule._collect_outputs] *)
Definition _collect_outputs {A B : Type} `{Metric A, Metric B} (outputs : list outputs_t)
  : M (A * B) unit :=
  for_each outputs (fun output =>
    pred_scores ← lift (getitem output "pred_scores");
    label ← lift (getitem output "label");
    modify (fun '(image_metric, pixel_metric) =>
              (update pred_scores (int label) image_metric, pixel_metric));;
    if contains "mask" output && contains "anomaly_maps" output then
      anomaly_maps ← lift (getitem output "anomaly_maps");
      mask ← lift (getitem output "mask");
      modify (fun '(image_metric, pixel_metric) =>
                (image_metric, update (flatten anomaly_maps) (int (flatten mask)) pixel_metric))
    else mret tt).

(** [AnomalibModule._log_metrics] *)
Definition _log_metrics : M AnomalibModule unit :=
  self ← gets id;
  log_dict (image_metrics self);;
  if String.eqb (task self) "segmentation" then log_dict (pixel_metrics self) else mret tt.

(** [AnomalibModule.test_epoch_end] *)
Definition test_epoch_end (outputs : list outputs_t) : M AnomalibModule unit :=
  zoom metrics set_metrics (_collect_outputs outputs);;
  _log_metrics.

(** [outputs[0]] *)
Definition first (outputs : list outputs_t) : result outputs_t :=
  match outputs with
  | [] => Raise (IndexError "list index out of range")
  | o :: _ => Ok o
  end.

Section Thresholding.

(** The criterion by which the threshold aggregator chooses its value from
    the pairs it was fed; the choice is the aggregator's own. *)
Variable criterion : list pair_t -> Q.

(** [threshold.compute()] *)
Definition compute (a : AdaptiveThreshold) : AdaptiveThreshold :=
  set_value (criterion (fed a)) a.

(** [AnomalibModule._compute_adaptive_threshold] *)
Definition _compute_adaptive_threshold (outputs : list outputs_t) : M AnomalibModule unit :=
  zoom thresholds set_thresholds (_collect_outputs outputs);;
  modify (fun self => set_image_threshold (compute (image_threshold self)) self);;
  output0 ← lift (first outputs);
  (if contains "mask" output0 && contains "anomaly_maps" output0 then
     modify (fun self => set_pixel_threshold (compute (pixel_threshold self)) self)
   else
     modify (fun self =>
       set_pixel_threshold (set_value (value (image_threshold self)) (pixel_threshold self)) self));;
  modify (fun self =>
    set_image_metrics (set_F1_threshold (value (image_threshold self)) (image_metrics self)) self);;
  modify (fun self =>
    set_pixel_metrics (set_F1_threshold (value (pixel_threshold self)) (pixel_metrics self)) self).

(** [AnomalibModule.validation_epoch_end] *)
Definition validation_epoch_end (outputs : list outputs_t) : M AnomalibModule unit :=
  self ← gets id;
  (if adaptive_threshold self then _compute_adaptive_threshold outputs else mret tt);;
  zoom metrics set_metrics (_collect_outputs outputs);;
  _log_metrics.

End Thresholding.

(** ** The steps

    [validation_step] is the method a concrete anomaly model overrides; the
    other steps call it through [self]. *)

Class Model (batch : Type) : Type :=
  validation_step : batch -> nat -> M AnomalibModule outputs_t.

(** [AnomalibModule.validation_step], the method of the base class. *)
Definition AnomalibModule_validation_step {batch : Type} : Model batch :=
  fun _ _ => raise NotImplementedError.

Section Steps.

Context {batch : Type} `{Model batch}.

(** [AnomalibModule.predict_step] *)
Definition predict_step (b : batch) (batch_idx : nat) (_ : nat) : M AnomalibModule outputs_t :=
  outputs ← validation_step b batch_idx;
  outputs ← lift (_post_process outputs);
  pred_scores ← lift (getitem outputs "pred_scores");
  threshold ← gets (fun self => value (image_threshold self));
  mret (<["pred_labels" := ge pred_scores threshold]> outputs).

(** [AnomalibModule.test_step] *)
Definition test_step (b : batch) (batch_idx : nat) : M AnomalibModule outputs_t :=
  validation_step b batch_idx.

End Steps.

(** [AnomalibModule.validation_step_end] *)
Definition validation_step_end (val_step_outputs : outputs_t) : M AnomalibModule outputs_t :=
  lift (_post_process val_step_outputs).

(** [AnomalibModule.test_step_end] *)
Definition test_step_end (test_step_outputs : outputs_t) : M AnomalibModule outputs_t :=
  lift (_post_process test_step_outputs).

(** ** The CSV callback *)

(** Modelled from the spec: the results summary [pl_module.results], whose
    class is not among the sources.  It holds, per test sample, the file
    name, the true label (an integer class) and the predicted label (the
    boolean decision, which the callback converts with [astype(int)]); the
    attributes [filenames], [true_labels] and [pred_labels] are its columns. *)
Record Sample : Type := mkSample {
  filename : string;
  label_true : Z;
  label_pred : bool
}.

Abbreviation ResultSet := (list Sample).

Definition filenames (results : ResultSet) : list string := map filename results.
Definition true_labels (results : ResultSet) : list Z := map label_true results.
Definition pred_labels (results : ResultSet) : list bool := map label_pred results.

(** The truth value of a number: it is true unless it is zero. *)
Definition truthy (z : Z) : bool := negb (z =? 0)%Z.

(** [np.logical_xor(a, b)]: elementwise on arrays of one length; an array of
    one element is broadcast over the other. *)
Definition logical_xor (a : list Z) (b : list bool) : result (list bool) :=
  if (length a =? length b)%nat then
    Ok (zip_with (fun x y => xorb (truthy x) y) a b)
  else if (length a =? 1)%nat then
    Ok (map (fun y => xorb (truthy (hd 0%Z a)) y) b)
  else if (length b =? 1)%nat then
    Ok (map (fun x => xorb (truthy x) (hd false b)) a)
  else Raise (ValueError "operands could not be broadcast together").

(** [array.astype(int)] of a boolean array *)
Definition astype_int (a : list bool) : list Z := map Z.b2z a.

(** A row of the data frame; its index is its position. *)
Record Row : Type := mkRow {
  name : string;
  true_label : Z;
  pred_label : Z;
  wrong_prediction : Z
}.

(** [pd.DataFrame({...})] of the four columns: they must have one length. *)
Definition DataFrame (names : list string) (true_labels pred_labels wrong : list Z)
  : result (list Row) :=
  if (length names =? length true_labels)%nat
     && (length names =? length pred_labels)%nat
     && (length names =? length wrong)%nat
  then
    Ok (zip_with (fun '(n, t) '(p, w) => mkRow n t p w)
                 (zip names true_labels) (zip pred_labels wrong))
  else Raise (ValueError "All arrays must be of the same length").

Record Trainer : Type := mkTrainer {
  log_dir : option string
}.

(** The files written so far, by directory and file name.  Failures of the
    storage itself are outside the model. *)
Abbreviation Files := (gmap (string * string) (list Row)).

(** [data_frame.to_csv(Path(directory) / file)] *)
Definition to_csv (data_frame : list Row) (directory file : string) : M Files unit :=
  modify (fun files : Files => <[(directory, file) := data_frame]> files).

(** [SaveToCSVCallback.on_test_epoch_end]; [results] is [pl_module.results]. *)
Definition on_test_epoch_end (trainer : Trainer) (results : ResultSet) : M Files unit :=
  let col_pred := astype_int (pred_labels results) in
  wrong ← lift (logical_xor (true_labels results) (pred_labels results));
  data_frame ← lift (DataFrame (filenames results) (true_labels results)
                               col_pred (astype_int wrong));
  match log_dir trainer with
  | Some directory => to_csv data_frame directory "results.csv"
  | None => raise (ValueError "trainer.log_dir does not exist to save the results.")
  end.

(** * Specification vocabulary *)

(** [m] is the maximum of [l]: it occurs in [l] and no element exceeds it. *)
Definition is_max (m : Q) (l : list Q) : Prop :=
  m ∈ l ∧ ∀ x, x ∈ l → (x <= m)%Q.

(** The elements of [t[i]], all positions of sample [i] in row-major order. *)
Definition sample_elems (t : Tensor) (i : nat) : list Q :=
  let c := foldr Nat.mul 1 (tail (shape t)) in
  take c (drop (i * c) (data t)).

(** The pair an output feeds the image-level aggregator: its scores and its
    labels as integers. *)
Definition image_pair (output : outputs_t) : option pair_t :=
  pred_scores ← output !! "pred_scores";
  label ← output !! "label";
  Some (pred_scores, int label).

(** The pair an output feeds the pixel-level aggregator, if it carries both
    [anomaly_maps] and [mask]: the flattened maps and the flattened masks as
    integers. *)
Definition pixel_pair (output : outputs_t) : option pair_t :=
  anomaly_maps ← output !! "anomaly_maps";
  mask ← output !! "mask";
  Some (flatten anomaly_maps, int (flatten mask)).

(** The output carries both [mask] and [anomaly_maps]. *)
Definition carries_both (output : outputs_t) : bool :=
  contains "mask" output && contains "anomaly_maps" output.

(** One [update] call per pair, in order. *)
Definition feed {A : Type} `{Metric A} (pairs : list pair_t) (a : A) : A :=
  fold_left (fun a p => update (fst p) (snd p) a) pairs a.

(** The row the callback exports for a sample. *)
Definition row_of (s : Sample) : Row :=
  mkRow (filename s) (label_true s) (Z.b2z (label_pred s))
        (Z.b2z (xorb (truthy (label_true s)) (label_pred s))).

(** * Sample inputs *)

(** Two samples with anomaly maps of one row and two columns, their labels
    and their masks. *)
Definition ex_maps : Tensor :=
  mkTensor Float32 [2; 1; 2] [1 # 10; 9 # 10; 1 # 2; 3 # 10]%Q.
Definition ex_labels : Tensor := mkTensor Int64 [2] [1; 0]%Q.
Definition ex_masks : Tensor := mkTensor Float32 [2; 1; 2] [1; 1; 0; 0]%Q.
Definition ex_scores : Tensor := mkTensor Float32 [2] [9 # 10; 1 # 2]%Q.

(** A segmentation output before post-processing, and a classification
    output, which has scores and labels only. *)
Definition ex_output : outputs_t :=
  <["anomaly_maps" := ex_maps]> (<["mask" := ex_masks]> {["label" := ex_labels]}).
Definition ex_scored : outputs_t :=
  <["pred_scores" := ex_scores]> {["label" := ex_labels]}.

(** A model whose validation step returns the segmentation output for every
    batch, and a module with the default thresholds one half. *)
Definition ex_model : Model unit := fun _ _ => mret ex_output.
Definition ex_self : AnomalibModule := __init__ "segmentation" true (1 # 2) (1 # 2).

(** The segmentation output after post-processing, and a mixed epoch: its
    first output carries masks and maps, its second does not. *)
Definition ex_processed : outputs_t := <["pred_scores" := ex_scores]> ex_output.
Definition ex_mixed : list outputs_t := [ex_processed; ex_scored].

(** A sample criterion: the lowest score of a positive element among the
    pairs fed, and 0 when there is none. *)
Definition positives (p : pair_t) : list Q :=
  omap (fun '(score, target) => if Qeq_bool target 0 then None else Some score)
       (zip (data (fst p)) (data (snd p))).
Definition qmin (a b : Q) : Q := if Qle_bool a b then a else b.
Definition ex_criterion (pairs : list pair_t) : Q :=
  match concat (map positives pairs) with
  | [] => 0%Q
  | x :: l => fold_left qmin l x
  end.

(** A module that keeps its configured thresholds. *)
Definition ex_fixed : AnomalibModule := __init__ "classification" false (1 # 2) (3 # 10).

(** Two test samples of the anomalous class, the first one missed, and
    trainers with and without a log directory. *)
Definition ex_results : ResultSet :=
  [mkSample "000.png" 1 false; mkSample "001.png" 1 true].
Definition ex_trainer : Trainer := mkTrainer (Some "results/padim").
Definition ex_trainer_no_dir : Trainer := mkTrainer None.

(** * Vocabulary for malformed epochs *)

(** The leading outputs of an epoch that carry both [pred_scores] and
    [label]: the outputs [_collect_outputs] gets through before a lookup
    fails. *)
Fixpoint well_formed_prefix (outputs : list outputs_t) : list outputs_t :=
  match outputs with
  | [] => []
  | o :: rest =>
      match image_pair o with
      | Some _ => o :: well_formed_prefix rest
      | None => []
      end
  end.

(** The key whose lookup fails in an output that lacks [pred_scores] or
    [label]: [pred_scores] is looked up first. *)
Definition missing_key (output : outputs_t) : string :=
  if contains "pred_scores" output then "label" else "pred_scores".

(** An output without scores (it was not post-processed), an output with
    labels only, and a model that returns the latter. *)
Definition ex_unscored : list outputs_t := [ex_scored; ex_output; ex_scored].
Definition ex_labels_only : outputs_t := {["label" := ex_labels]}.
Definition ex_model_labels_only : Model unit := fun _ _ => mret ex_labels_only.

(** Anomaly maps without a sample, and with two samples of no position. *)
Definition ex_no_sample : Tensor := mkTensor Float32 [0; 2; 2] [].
Definition ex_no_position : Tensor := mkTensor Float32 [2; 0] [].
Definition ex_output_no_sample : outputs_t := {["anomaly_maps" := ex_no_sample]}.
Definition ex_output_no_position : outputs_t := {["anomaly_maps" := ex_no_position]}.

(** The aggregators and the log of [self'] extend those of [self]: what
    was fed or logged before is still there, in the same order. *)
Definition extends (self self' : AnomalibModule) : Prop :=
  fed (image_threshold self) `prefix_of` fed (image_threshold self')
  ∧ fed (pixel_threshold self) `prefix_of` fed (pixel_threshold self')
  ∧ seen (image_metrics self) `prefix_of` seen (image_metrics self')
  ∧ seen (pixel_metrics self) `prefix_of` seen (pixel_metrics self')
  ∧ logged self `prefix_of` logged self'.

(** A model that returns scored outputs and leaves the module alone. *)
Definition ex_model_scored : Model unit := fun _ _ => mret ex_scored.

(** * Properties *)

(** ** Row maxima *)

Lemma qmax_cases (a b : Q) :
  (qmax a b = a ∨ qmax a b = b) ∧ (a <= qmax a b)%Q ∧ (b <= qmax a b)%Q.
Proof.
  unfold qmax. destruct (Qle_bool a b) eqn:E.
  - apply Qle_bool_iff in E. repeat split; auto using Qle_refl.
  - repeat split; auto using Qle_refl.
    destruct (Qlt_le_dec a b) as [Hlt | Hle]; [| exact Hle].
    apply Qlt_le_weak, Qle_bool_iff in Hlt. congruence.
Qed.

Lemma fold_left_qmax_is_max (l : list Q) (x : Q) : is_max (fold_left qmax l x) (x :: l).
Proof.
  revert x. induction l as [| y l IH]; intros x; simpl.
  - split; [left |]. intros z Hz. apply list_elem_of_singleton in Hz. subst. apply Qle_refl.
  - destruct (IH (qmax x y)) as [Hin Hub].
    destruct (qmax_cases x y) as (Hc & Hx & Hy).
    assert (Hq : (qmax x y <= fold_left qmax l (qmax x y))%Q) by (apply Hub; left).
    split.
    + apply elem_of_cons in Hin as [Heq | Hin].
      * rewrite Heq. destruct Hc as [Hc | Hc]; rewrite Hc; [left | right; left].
      * right; right; exact Hin.
    + intros z Hz.
      apply elem_of_cons in Hz as [Hz | Hz]; [subst z; eauto using Qle_trans |].
      apply elem_of_cons in Hz as [Hz | Hz]; [subst z; eauto using Qle_trans |].
      apply Hub. right; exact Hz.
Qed.

Lemma max_of_is_max (l : list Q) (m : Q) : max_of l = Some m → is_max m l.
Proof.
  destruct l as [| x l]; simpl; [discriminate |].
  intros [= <-]. apply fold_left_qmax_is_max.
Qed.

Lemma rows_length (n c : nat) (l : list Q) : length (rows n c l) = n.
Proof. revert l. induction n; intros l; simpl; auto. Qed.

Lemma rows_lookup (n c : nat) (l : list Q) (i : nat) :
  i < n → rows n c l !! i = Some (take c (drop (i * c) l)).
Proof.
  revert l i. induction n as [| n IH]; intros l i Hi; [lia |].
  destruct i as [| i]; simpl; [done |].
  rewrite IH by lia. by rewrite drop_drop.
Qed.

Lemma rows_nonempty (n c : nat) (l : list Q) :
  0 < c → length l = n * c → Forall (λ r, is_Some (max_of r)) (rows n c l).
Proof.
  intros Hc. revert l. induction n as [| n IH]; intros l Hl; simpl; [constructor |].
  constructor.
  - destruct (take c l) eqn:E; simpl; [| eauto].
    apply (f_equal length) in E. rewrite length_take in E. simpl in E. lia.
  - apply IH. rewrite length_drop. lia.
Qed.

Lemma numel_cons (t : Tensor) (n : nat) (rest : list nat) :
  shape t = n :: rest → numel t = n * foldr Nat.mul 1 rest.
Proof. unfold numel. by intros ->. Qed.

(** What [_post_process] computes from the anomaly maps. *)
Lemma reshape_max_scores (am : Tensor) (n : nat) (rest : list nat) :
  shape am = n :: rest → wf am → 0 < numel am →
  ∃ ps, (r ← reshape am n; max_dim1 r) = Ok ps
        ∧ t_dtype ps = t_dtype am ∧ shape ps = [n] ∧ length (data ps) = n
        ∧ ∀ i, i < n → ∃ m, data ps !! i = Some m ∧ is_max m (sample_elems am i).
Proof.
  intros Hs Hwf Hpos.
  pose proof (numel_cons am n rest Hs) as Hnum.
  set (c := foldr Nat.mul 1 rest) in *.
  assert (Hn : 0 < n) by nia. assert (Hc : 0 < c) by nia.
  unfold reshape.
  destruct (Nat.eqb_spec n 0) as [-> | _]; [lia |].
  assert (Hmod : numel am mod n = 0).
  { rewrite Hnum, Nat.mul_comm. apply Nat.Div0.mod_mul. }
  rewrite Hmod. simpl.
  assert (Hdiv : numel am / n = c).
  { rewrite Hnum, Nat.mul_comm. apply Nat.div_mul. lia. }
  unfold max_dim1. simpl. rewrite Hdiv.
  pose proof (rows_nonempty n c (data am) Hc) as Hrows.
  unfold wf in Hwf. rewrite Hnum in Hwf. specialize (Hrows Hwf).
  apply (mapM_is_Some_2 max_of) in Hrows as [ms Hms].
  rewrite Hms. eexists. split; [reflexivity |]. simpl.
  apply mapM_Some_1 in Hms.
  pose proof (Forall2_length _ _ _ Hms) as Hlen. rewrite rows_length in Hlen.
  repeat split; auto.
  intros i Hi.
  destruct (lookup_lt_is_Some_2 ms i) as [m Hm]; [lia |].
  exists m. split; [done |].
  apply max_of_is_max.
  eapply (Forall2_lookup_lr _ _ _ i) in Hms; [exact Hms | | exact Hm].
  unfold sample_elems. rewrite Hs. simpl. fold c. by apply rows_lookup.
Qed.

Lemma contains_true (key : string) (d : outputs_t) :
  contains key d = true ↔ is_Some (d !! key).
Proof.
  unfold contains. destruct (d !! key); split; intros Hk; eauto; try done.
Qed.

Lemma contains_false (key : string) (d : outputs_t) :
  contains key d = false ↔ d !! key = None.
Proof. unfold contains. by destruct (d !! key). Qed.

(** C2. If [pred_scores] is absent and [anomaly_maps] is present,
    [_post_process] sets [pred_scores] to the per-sample maximum of the
    anomaly maps: its element [i] is the maximum of [anomaly_maps[i]] over all
    positions (for anomaly maps that have a batch dimension and at least one
    element, where the maximum exists).  In every other case the dictionary
    is left as it is. *)
Theorem post_process_pred_scores (outputs : outputs_t) :
  (∀ am : Tensor,
      outputs !! "pred_scores" = None → outputs !! "anomaly_maps" = Some am →
      wf am → shape am ≠ [] → 0 < numel am →
      ∃ ps : Tensor,
        _post_process outputs = Ok (<["pred_scores" := ps]> outputs)
        ∧ shape ps = [hd 0 (shape am)] ∧ wf ps
        ∧ ∀ i, i < hd 0 (shape am) →
               ∃ m, data ps !! i = Some m ∧ is_max m (sample_elems am i))
  ∧ (¬ (outputs !! "pred_scores" = None ∧ is_Some (outputs !! "anomaly_maps")) →
     _post_process outputs = Ok outputs).
Proof.
  split.
  - intros am Hps Ham Hwf Hshape Hpos.
    destruct (shape am) as [| n rest] eqn:Hs; [done |].
    destruct (reshape_max_scores am n rest Hs Hwf Hpos) as (ps & Hrun & _ & Hsh & Hlen & Hmax).
    exists ps. unfold _post_process.
    apply contains_false in Hps as ->.
    assert (Hc : contains "anomaly_maps" outputs = true) by (apply contains_true; eauto).
    rewrite Hc. simpl. unfold getitem. rewrite Ham. simpl.
    unfold shape0. rewrite Hs. simpl.
    change (mbind (M := result) ?f ?r) with (result_bind _ _ f r) in Hrun |- *.
    destruct (reshape am n) as [r | e]; simpl in *; [| discriminate].
    destruct (max_dim1 r) as [ps' | e]; simpl in *; [| discriminate].
    injection Hrun as ->.
    repeat split; auto. unfold wf, numel. rewrite Hsh, Hlen. simpl. lia.
  - intros Hnot. unfold _post_process.
    destruct (contains "pred_scores" outputs) eqn:E1; simpl; [done |].
    destruct (contains "anomaly_maps" outputs) eqn:E2; simpl; [| done].
    exfalso. apply Hnot. split; [by apply contains_false | by apply contains_true].
Qed.

Lemma post_process_pred_scores_witness :
  (∃ ps : Tensor,
      _post_process ex_output = Ok (<["pred_scores" := ps]> ex_output)
      ∧ shape ps = [hd 0 (shape ex_maps)] ∧ wf ps
      ∧ ∀ i, i < hd 0 (shape ex_maps) →
             ∃ m, data ps !! i = Some m ∧ is_max m (sample_elems ex_maps i))
  ∧ _post_process ex_scored = Ok ex_scored.
Proof.
  split.
  - apply (proj1 (post_process_pred_scores ex_output) ex_maps).
    + vm_compute; reflexivity.
    + vm_compute; reflexivity.
    + vm_compute; reflexivity.
    + discriminate.
    + vm_compute; lia.
  - apply (proj2 (post_process_pred_scores ex_scored)).
    intros [Hnone _]. vm_compute in Hnone. discriminate.
Defined.

Lemma post_process_fixed (outputs o' : outputs_t) :
  _post_process outputs = Ok o' → _post_process o' = Ok o'.
Proof.
  unfold _post_process at 1.
  destruct (negb (contains "pred_scores" outputs) && contains "anomaly_maps" outputs) eqn:Hc.
  - unfold mbind, result_bind.
    destruct (getitem outputs "anomaly_maps") as [am | ?]; [| discriminate].
    destruct (shape0 am) as [n | ?]; [| discriminate].
    destruct (reshape am n) as [r | ?]; [| discriminate].
    destruct (max_dim1 r) as [m | ?]; [| discriminate].
    intros [= <-]. unfold _post_process.
    assert (Hps : contains "pred_scores" (<["pred_scores" := m]> outputs) = true).
    { apply contains_true. rewrite lookup_insert_eq. eauto. }
    by rewrite Hps.
  - intros [= <-]. unfold _post_process. by rewrite Hc.
Qed.

(** C7. [_post_process] is idempotent: running it on its own result gives
    that result again (and a call that raises has no result to run on). *)
Theorem post_process_idempotent (outputs : outputs_t) :
  (_post_process outputs ≫= _post_process) = _post_process outputs.
Proof.
  unfold mbind, result_bind.
  destruct (_post_process outputs) as [o' | e] eqn:Hrun; [| reflexivity].
  eapply post_process_fixed, Hrun.
Qed.

(** ** The steps *)

Lemma ge_lookup (scores : Tensor) (v : Q) (i : nat) (x : Q) :
  data scores !! i = Some x →
  data (ge scores v) !! i = Some (Qof_bool (Qle_bool v x)).
Proof. intros Hx. unfold ge. simpl. by rewrite list_lookup_fmap, Hx. Qed.

(** C3. [predict_step] returns the outputs of [validation_step], run
    through [_post_process], with [pred_labels] set to the elementwise
    comparison [pred_scores >= image_threshold.value]: a label is 1 exactly
    when its score is at least the threshold, so a score equal to the
    threshold is labelled positive. *)
Theorem predict_step_labels {batch : Type} `{Model batch}
    (b : batch) (batch_idx dataloader_idx : nat) (self self' : AnomalibModule)
    (outputs outputs' : outputs_t) (scores : Tensor) :
  validation_step b batch_idx self = (Ok outputs, self') →
  _post_process outputs = Ok outputs' →
  outputs' !! "pred_scores" = Some scores →
  let threshold := value (image_threshold self') in
  ∃ labels : Tensor,
    predict_step b batch_idx dataloader_idx self
      = (Ok (<["pred_labels" := labels]> outputs'), self')
    ∧ t_dtype labels = Bool ∧ shape labels = shape scores
    ∧ length (data labels) = length (data scores)
    ∧ ∀ i x, data scores !! i = Some x →
        ∃ l : bool, data labels !! i = Some (Qof_bool l)
                    ∧ (l = true ↔ (threshold <= x)%Q)
                    ∧ ((x == threshold)%Q → l = true).
Proof.
  intros Hstep Hpost Hscores threshold.
  exists (ge scores threshold). split; [| split; [| split; [| split]]]; try reflexivity.
  - unfold predict_step, mbind, M_bind. rewrite Hstep.
    unfold lift. rewrite Hpost. unfold getitem. rewrite Hscores. reflexivity.
  - unfold ge. simpl. by rewrite length_map.
  - intros i x Hx. exists (Qle_bool threshold x).
    split; [by apply ge_lookup |]. split; [apply Qle_bool_iff |].
    intros Heq. apply Qle_bool_iff. rewrite Heq. apply Qle_refl.
Qed.

Lemma predict_step_labels_witness :
  ∃ labels : Tensor,
    predict_step (H := ex_model) tt 0 0 ex_self
      = (Ok (<["pred_labels" := labels]> (<["pred_scores" := ex_scores]> ex_output)), ex_self)
    ∧ t_dtype labels = Bool ∧ shape labels = shape ex_scores
    ∧ length (data labels) = length (data ex_scores)
    ∧ ∀ i x, data ex_scores !! i = Some x →
        ∃ l : bool, data labels !! i = Some (Qof_bool l)
                    ∧ (l = true ↔ (value (image_threshold ex_self) <= x)%Q)
                    ∧ ((x == value (image_threshold ex_self))%Q → l = true).
Proof.
  apply (predict_step_labels (H := ex_model) tt 0 0 ex_self ex_self ex_output).
  - reflexivity.
  - vm_compute; reflexivity.
  - vm_compute; reflexivity.
Defined.

(** C9. [validation_step] of the base class raises [NotImplementedError]
    for every batch and leaves the module as it is; the steps that call it,
    [predict_step] and [test_step], do not catch the exception. *)
Theorem validation_step_not_implemented {batch : Type}
    (b : batch) (batch_idx dataloader_idx : nat) (self : AnomalibModule) :
  validation_step (Model := AnomalibModule_validation_step) b batch_idx self
    = (Raise NotImplementedError, self)
  ∧ predict_step (H := AnomalibModule_validation_step) b batch_idx dataloader_idx self
    = (Raise NotImplementedError, self)
  ∧ test_step (H := AnomalibModule_validation_step) b batch_idx self
    = (Raise NotImplementedError, self).
Proof. repeat split. Qed.

(** ** Feeding the aggregators *)

Lemma image_pair_Some (output : outputs_t) (p : pair_t) :
  image_pair output = Some p →
  ∃ label, output !! "pred_scores" = Some (fst p) ∧ output !! "label" = Some label
           ∧ snd p = int label.
Proof.
  unfold image_pair. intros Hp.
  destruct (output !! "pred_scores") as [ps |]; [| discriminate].
  destruct (output !! "label") as [l |]; [| discriminate].
  simpl in Hp. injection Hp as <-. eauto.
Qed.

Lemma pixel_pair_carries (output : outputs_t) :
  match pixel_pair output with
  | Some p => carries_both output = true
              ∧ ∃ am mask, output !! "anomaly_maps" = Some am ∧ output !! "mask" = Some mask
                           ∧ p = (flatten am, int (flatten mask))
  | None => carries_both output = false
  end.
Proof.
  unfold pixel_pair, carries_both, contains.
  destruct (output !! "anomaly_maps") as [am |], (output !! "mask") as [mask |];
    simpl; eauto 10.
Qed.

Lemma feed_snoc {A : Type} `{Metric A} (pairs : list pair_t) (p : pair_t) (a : A) :
  feed (p :: pairs) a = feed pairs (update (fst p) (snd p) a).
Proof. reflexivity. Qed.

Lemma collect_outputs_run {A B : Type} `{Metric A, Metric B}
    (outputs : list outputs_t) (pairs : list pair_t) (image_metric : A) (pixel_metric : B) :
  mapM image_pair outputs = Some pairs →
  _collect_outputs outputs (image_metric, pixel_metric)
  = (Ok tt, (feed pairs image_metric, feed (omap pixel_pair outputs) pixel_metric)).
Proof.
  revert pairs image_metric pixel_metric.
  induction outputs as [| o outputs IH]; intros pairs im pm Hpairs.
  - injection Hpairs as <-. reflexivity.
  - apply mapM_Some_1 in Hpairs. inversion Hpairs as [| ? p ? pairs' Hp Hrest]; subst.
    apply mapM_Some_2 in Hrest.
    destruct (image_pair_Some o p Hp) as (label & Hs & Hl & Hint).
    pose proof (pixel_pair_carries o) as Hpix.
    unfold _collect_outputs in *. simpl.
    unfold mbind at 1. unfold M_bind.
    unfold mbind at 1. unfold M_bind. unfold lift at 1. unfold getitem at 1. rewrite Hs.
    unfold mbind at 1. unfold M_bind. unfold lift at 1. unfold getitem at 1. rewrite Hl.
    unfold mbind at 1. unfold M_bind. unfold modify at 1.
    fold (carries_both o).
    destruct (pixel_pair o) as [pp |] eqn:Epp.
    + destruct Hpix as (Hc & am & mask & Ham & Hmask & ->). rewrite Hc.
      unfold mbind at 1. unfold M_bind. unfold lift at 1. unfold getitem at 1. rewrite Ham.
      unfold mbind at 1. unfold M_bind. unfold lift at 1. unfold getitem at 1. rewrite Hmask.
      unfold modify at 1.
      rewrite (IH pairs') by done. by rewrite Hint.
    + rewrite Hpix. unfold mret at 1. unfold M_ret.
      rewrite (IH pairs') by done. by rewrite Hint.
Qed.

Lemma fed_feed (pairs : list pair_t) (a : AdaptiveThreshold) :
  feed pairs a = {| value := value a; fed := fed a ++ pairs |}.
Proof.
  revert a. induction pairs as [| [ps tg] pairs IH]; intros a.
  - destruct a. simpl. by rewrite app_nil_r.
  - rewrite feed_snoc, IH. simpl. by rewrite <- app_assoc.
Qed.

Lemma seen_feed (pairs : list pair_t) (c : MetricCollection) :
  feed pairs c = {| prefix := prefix c; F1_threshold := F1_threshold c; seen := seen c ++ pairs |}.
Proof.
  revert c. induction pairs as [| [ps tg] pairs IH]; intros c.
  - destruct c. simpl. by rewrite app_nil_r.
  - rewrite feed_snoc, IH. simpl. by rewrite <- app_assoc.
Qed.

Lemma pixel_pairs_length (outputs : list outputs_t) :
  length (omap pixel_pair outputs) = length (filter (λ o, carries_both o = true) outputs).
Proof.
  induction outputs as [| o outputs IH]; [reflexivity |].
  pose proof (pixel_pair_carries o) as Hpix.
  rewrite filter_cons. change (omap pixel_pair (o :: outputs))
    with (match pixel_pair o with Some p => p :: omap pixel_pair outputs
                                | None => omap pixel_pair outputs end).
  destruct (pixel_pair o).
  - destruct Hpix as [Hc _]. rewrite decide_True by done. simpl. by f_equal.
  - by rewrite decide_False by congruence.
Qed.

(** C6. [_collect_outputs] updates the image-level aggregator once per
    output, in order, with the output's [pred_scores] and its [label] as
    integers, and updates the pixel-level aggregator once for each output that
    carries both [mask] and [anomaly_maps], with the flattened maps and the
    flattened mask as integers; the outputs that lack one of them feed the
    pixel-level aggregator nothing. *)
Theorem collect_outputs_feeds {A B : Type} `{Metric A, Metric B}
    (outputs : list outputs_t) (pairs : list pair_t) (image_metric : A) (pixel_metric : B) :
  mapM image_pair outputs = Some pairs →
  _collect_outputs outputs (image_metric, pixel_metric)
  = (Ok tt, (feed pairs image_metric, feed (omap pixel_pair outputs) pixel_metric))
  ∧ length pairs = length outputs
  ∧ (∀ i o, outputs !! i = Some o →
       ∃ scores label, o !! "pred_scores" = Some scores ∧ o !! "label" = Some label
                       ∧ pairs !! i = Some (scores, int label))
  ∧ length (omap pixel_pair outputs) = length (filter (λ o, carries_both o = true) outputs)
  ∧ (∀ p, p ∈ omap pixel_pair outputs ↔
       ∃ o am mask, o ∈ outputs ∧ o !! "anomaly_maps" = Some am ∧ o !! "mask" = Some mask
                    ∧ p = (flatten am, int (flatten mask))).
Proof.
  intros Hpairs. split; [by apply collect_outputs_run |].
  apply mapM_Some_1 in Hpairs.
  split; [symmetry; eapply Forall2_length, Hpairs |].
  split; [| split; [apply pixel_pairs_length |]].
  - intros i o Ho.
    destruct (Forall2_lookup_l _ _ _ _ _ Hpairs Ho) as (p & Hp & Hpair).
    destruct (image_pair_Some o p Hpair) as (label & Hs & Hl & Hint).
    exists (fst p), label. repeat split; auto. rewrite Hp, <- Hint. by destruct p.
  - intros p. rewrite list_elem_of_omap. split.
    + intros (o & Ho & Hp). pose proof (pixel_pair_carries o) as Hpix. rewrite Hp in Hpix.
      destruct Hpix as (_ & am & mask & ? & ? & ?). eauto 10.
    + intros (o & am & mask & Ho & Ham & Hmask & ->). exists o. split; [done |].
      unfold pixel_pair. by rewrite Ham, Hmask.
Qed.

Lemma collect_outputs_feeds_witness :
  let pairs := [(ex_scores, int ex_labels); (ex_scores, int ex_labels)] in
  _collect_outputs ex_mixed (mkThreshold (1 # 2) [], mkThreshold (1 # 2) [])
  = (Ok tt, (feed pairs (mkThreshold (1 # 2) []),
             feed [(flatten ex_maps, int (flatten ex_masks))] (mkThreshold (1 # 2) [])))
  ∧ length pairs = 2
  ∧ length (omap pixel_pair ex_mixed) = 1.
Proof.
  intros pairs.
  destruct (collect_outputs_feeds ex_mixed pairs (mkThreshold (1 # 2) []) (mkThreshold (1 # 2) []))
    as (Hrun & Hlen & _ & Hpix & _).
  - vm_compute; reflexivity.
  - split; [| split].
    + rewrite Hrun. reflexivity.
    + exact Hlen.
    + rewrite Hpix. vm_compute; reflexivity.
Defined.

(** ** Epoch ends *)

Section Epochs.

Variable criterion : list pair_t -> Q.

(** The module a successful threshold computation leaves behind. *)
Lemma compute_adaptive_threshold_run (o : outputs_t) (rest : list outputs_t)
    (pairs : list pair_t) (self : AnomalibModule) :
  mapM image_pair (o :: rest) = Some pairs →
  let image := compute criterion (feed pairs (image_threshold self)) in
  let pixel0 := feed (omap pixel_pair (o :: rest)) (pixel_threshold self) in
  let pixel := if carries_both o then compute criterion pixel0
               else set_value (value image) pixel0 in
  _compute_adaptive_threshold criterion (o :: rest) self
  = (Ok tt,
     mkModule (task self) (adaptive_threshold self) image pixel
              (set_F1_threshold (value image) (image_metrics self))
              (set_F1_threshold (value pixel) (pixel_metrics self))
              (logged self)).
Proof.
  intros Hpairs image pixel0 pixel.
  unfold _compute_adaptive_threshold.
  unfold mbind at 1. unfold M_bind. unfold zoom, thresholds.
  rewrite (collect_outputs_run _ pairs) by done.
  unfold mbind, M_bind, modify, lift, first.
  change (contains "mask" o && contains "anomaly_maps" o) with (carries_both o).
  subst pixel image pixel0.
  destruct (carries_both o); reflexivity.
Qed.

(** The module a successful [test_epoch_end] leaves behind. *)
Lemma test_epoch_end_run (outputs : list outputs_t) (pairs : list pair_t)
    (self : AnomalibModule) :
  mapM image_pair outputs = Some pairs →
  let image := feed pairs (image_metrics self) in
  let pixel := feed (omap pixel_pair outputs) (pixel_metrics self) in
  test_epoch_end outputs self
  = (Ok tt,
     mkModule (task self) (adaptive_threshold self)
              (image_threshold self) (pixel_threshold self) image pixel
              (logged self ++ image
                 :: (if String.eqb (task self) "segmentation" then [pixel] else []))).
Proof.
  intros Hpairs image pixel.
  unfold test_epoch_end.
  unfold mbind at 1. unfold M_bind. unfold zoom, metrics.
  rewrite (collect_outputs_run _ pairs) by done.
  unfold _log_metrics, mbind, M_bind, gets, log_dict, modify. simpl.
  fold image pixel.
  destruct (String.eqb (task self) "segmentation"); simpl; [| reflexivity].
  by rewrite <- app_assoc.
Qed.

(** Whatever the outputs, also when a malformed output makes it raise,
    [test_epoch_end] touches the metric collections and the log only. *)
Lemma test_epoch_end_frame (outputs : list outputs_t) (self : AnomalibModule) :
  let self' := snd (test_epoch_end outputs self) in
  task self' = task self ∧ adaptive_threshold self' = adaptive_threshold self
  ∧ image_threshold self' = image_threshold self
  ∧ pixel_threshold self' = pixel_threshold self.
Proof.
  unfold test_epoch_end, mbind, M_bind, zoom.
  destruct (_collect_outputs outputs (metrics self)) as [[[] | e] [image pixel]]; simpl;
    [| done].
  unfold _log_metrics, mbind, M_bind, gets, log_dict, modify. simpl.
  by destruct (String.eqb (task self) "segmentation").
Qed.

Lemma validation_epoch_end_unfold (outputs : list outputs_t) (self : AnomalibModule) :
  validation_epoch_end criterion outputs self
  = ((if adaptive_threshold self then _compute_adaptive_threshold criterion outputs
      else mret tt);; test_epoch_end outputs) self.
Proof. reflexivity. Qed.

Lemma validation_epoch_end_fixed (outputs : list outputs_t) (self : AnomalibModule) :
  adaptive_threshold self = false →
  validation_epoch_end criterion outputs self = test_epoch_end outputs self.
Proof. intros Hfixed. rewrite validation_epoch_end_unfold, Hfixed. reflexivity. Qed.

End Epochs.

(** C1, as the specification states it, fails on a mixed epoch: the first
    output of [ex_mixed] carries masks and maps and the second does not, and
    the pixel threshold is computed from the one pair the pixel aggregator
    was fed; it is not the image threshold. *)
Lemma compute_adaptive_threshold_mixed_counterexample :
  ex_mixed ≠ []
  ∧ ¬ Forall (λ o, carries_both o = true) ex_mixed
  ∧ ∃ self',
      _compute_adaptive_threshold ex_criterion ex_mixed ex_self = (Ok tt, self')
      ∧ ¬ (value (pixel_threshold self') == value (image_threshold self'))%Q
      ∧ value (pixel_threshold self') = ex_criterion (fed (pixel_threshold self')).
Proof.
  split; [discriminate |]. split.
  - intros Hall. apply Forall_cons in Hall as [_ Hall].
    apply Forall_cons in Hall as [Hscored _].
    vm_compute in Hscored. discriminate.
  - eexists. split; [vm_compute; reflexivity |]. split; [| vm_compute; reflexivity].
    simpl. intros Heq. vm_compute in Heq. discriminate.
Qed.

(** C1, amended. For a non-empty epoch whose outputs carry scores and
    labels, [_compute_adaptive_threshold] decides by the first output: if it
    carries both [mask] and [anomaly_maps], the pixel threshold is computed by
    the pixel aggregator from the (maps, mask) pairs of the outputs that carry
    both, independently of the image threshold; otherwise the pixel threshold
    is set to the image threshold just computed.  So it is computed
    independently when every output carries both, and equals the image
    threshold when none does.  The F1 cut-offs follow the two thresholds. *)
Theorem compute_adaptive_threshold_first_output (criterion : list pair_t → Q)
    (o : outputs_t) (rest : list outputs_t) (pairs : list pair_t) (self : AnomalibModule) :
  mapM image_pair (o :: rest) = Some pairs →
  ∃ self',
    _compute_adaptive_threshold criterion (o :: rest) self = (Ok tt, self')
    ∧ fed (image_threshold self') = fed (image_threshold self) ++ pairs
    ∧ value (image_threshold self') = criterion (fed (image_threshold self'))
    ∧ fed (pixel_threshold self')
      = fed (pixel_threshold self) ++ omap pixel_pair (o :: rest)
    ∧ (carries_both o = true →
       value (pixel_threshold self') = criterion (fed (pixel_threshold self')))
    ∧ (carries_both o = false →
       value (pixel_threshold self') = value (image_threshold self'))
    ∧ (Forall (λ x, carries_both x = true) (o :: rest) →
       value (pixel_threshold self') = criterion (fed (pixel_threshold self')))
    ∧ (Forall (λ x, carries_both x = false) (o :: rest) →
       value (pixel_threshold self') = value (image_threshold self'))
    ∧ F1_threshold (image_metrics self') = value (image_threshold self')
    ∧ F1_threshold (pixel_metrics self') = value (pixel_threshold self').
Proof.
  intros Hpairs. eexists. split; [by apply compute_adaptive_threshold_run |].
  cbn [image_threshold pixel_threshold image_metrics pixel_metrics].
  rewrite !fed_feed.
  destruct (carries_both o) eqn:Ho; simpl; repeat split; auto; try discriminate;
    intros Hall; apply Forall_cons in Hall as [Ho' _]; congruence.
Qed.

Lemma compute_adaptive_threshold_first_output_witness :
  ∃ self',
    _compute_adaptive_threshold ex_criterion ex_mixed ex_self = (Ok tt, self')
    ∧ value (pixel_threshold self') = ex_criterion (fed (pixel_threshold self'))
    ∧ length (fed (pixel_threshold self')) = 1.
Proof.
  destruct (compute_adaptive_threshold_first_output ex_criterion ex_processed [ex_scored]
              [(ex_scores, int ex_labels); (ex_scores, int ex_labels)] ex_self)
    as (self' & Hrun & _ & _ & Hfed & Hfirst & _).
  - vm_compute; reflexivity.
  - exists self'. split; [exact Hrun |]. split.
    + apply Hfirst. vm_compute; reflexivity.
    + rewrite Hfed. vm_compute; reflexivity.
Defined.

(** C8. [test_epoch_end] does the aggregation and logging of
    [validation_epoch_end] (the validation hook is an optional threshold
    computation followed by exactly the steps of the test hook): it feeds the
    outputs to the image and pixel metric collections and logs them, the pixel
    collection only for the segmentation task.  It never touches the image or
    pixel threshold, also on an epoch that makes it raise. *)
Theorem test_epoch_end_keeps_thresholds (criterion : list pair_t → Q)
    (outputs : list outputs_t) (self : AnomalibModule) :
  let self' := snd (test_epoch_end outputs self) in
  image_threshold self' = image_threshold self
  ∧ pixel_threshold self' = pixel_threshold self
  ∧ validation_epoch_end criterion outputs self
    = ((if adaptive_threshold self then _compute_adaptive_threshold criterion outputs
        else mret tt);; test_epoch_end outputs) self
  ∧ (∀ pairs, mapM image_pair outputs = Some pairs →
       fst (test_epoch_end outputs self) = Ok tt
       ∧ seen (image_metrics self') = seen (image_metrics self) ++ pairs
       ∧ seen (pixel_metrics self') = seen (pixel_metrics self) ++ omap pixel_pair outputs
       ∧ F1_threshold (image_metrics self') = F1_threshold (image_metrics self)
       ∧ F1_threshold (pixel_metrics self') = F1_threshold (pixel_metrics self)
       ∧ logged self'
         = logged self ++ image_metrics self'
             :: (if String.eqb (task self) "segmentation" then [pixel_metrics self'] else [])).
Proof.
  intros self'.
  destruct (test_epoch_end_frame outputs self) as (_ & _ & Himage & Hpixel).
  split; [exact Himage |]. split; [exact Hpixel |].
  split; [apply validation_epoch_end_unfold |].
  intros pairs Hpairs. subst self'.
  rewrite (test_epoch_end_run outputs pairs self Hpairs). simpl.
  rewrite !seen_feed. simpl. repeat split; reflexivity.
Qed.

Lemma test_epoch_end_keeps_thresholds_witness :
  let self' := snd (test_epoch_end ex_mixed ex_self) in
  fst (test_epoch_end ex_mixed ex_self) = Ok tt
  ∧ image_threshold self' = image_threshold ex_self
  ∧ pixel_threshold self' = pixel_threshold ex_self
  ∧ length (seen (image_metrics self')) = 2
  ∧ length (seen (pixel_metrics self')) = 1
  ∧ map prefix (logged self') = ["image_"; "pixel_"].
Proof.
  intros self'.
  destruct (test_epoch_end_keeps_thresholds ex_criterion ex_mixed ex_self)
    as (Himage & Hpixel & _ & Hrun).
  destruct (Hrun [(ex_scores, int ex_labels); (ex_scores, int ex_labels)])
    as (Hok & Hseen & Hpix & _ & _ & Hlog).
  - vm_compute; reflexivity.
  - split; [exact Hok |]. split; [exact Himage |]. split; [exact Hpixel |].
    subst self'. rewrite Hseen, Hpix, Hlog. repeat split; vm_compute; reflexivity.
Defined.

(** C10. With [adaptive_threshold] off, [validation_epoch_end] leaves the
    image threshold and the pixel threshold as they are, for every epoch: a
    module built by [__init__] keeps its configured default values.  The hook
    only feeds the outputs to the metric collections and logs them. *)
Theorem validation_epoch_end_fixed_thresholds (criterion : list pair_t → Q)
    (outputs : list outputs_t) (self : AnomalibModule) :
  adaptive_threshold self = false →
  let self' := snd (validation_epoch_end criterion outputs self) in
  image_threshold self' = image_threshold self
  ∧ pixel_threshold self' = pixel_threshold self
  ∧ task self' = task self ∧ adaptive_threshold self' = false
  ∧ (∀ task default_image default_pixel,
       self = __init__ task false default_image default_pixel →
       value (image_threshold self') = default_image
       ∧ value (pixel_threshold self') = default_pixel)
  ∧ (∀ pairs, mapM image_pair outputs = Some pairs →
       fst (validation_epoch_end criterion outputs self) = Ok tt
       ∧ seen (image_metrics self') = seen (image_metrics self) ++ pairs
       ∧ seen (pixel_metrics self') = seen (pixel_metrics self) ++ omap pixel_pair outputs
       ∧ F1_threshold (image_metrics self') = F1_threshold (image_metrics self)
       ∧ F1_threshold (pixel_metrics self') = F1_threshold (pixel_metrics self)
       ∧ logged self'
         = logged self ++ image_metrics self'
             :: (if String.eqb (task self) "segmentation" then [pixel_metrics self'] else [])).
Proof.
  intros Hfixed self'. subst self'.
  rewrite (validation_epoch_end_fixed criterion outputs self Hfixed).
  destruct (test_epoch_end_frame outputs self) as (Htask & Hadaptive & Himage & Hpixel).
  split; [exact Himage |]. split; [exact Hpixel |]. split; [exact Htask |].
  split; [congruence |]. split.
  - intros t di dp ->. rewrite Himage, Hpixel. split; reflexivity.
  - intros pairs Hpairs.
    rewrite (test_epoch_end_run outputs pairs self Hpairs). simpl.
    rewrite !seen_feed. simpl. repeat split; reflexivity.
Qed.

Lemma validation_epoch_end_fixed_thresholds_witness :
  let self' := snd (validation_epoch_end ex_criterion ex_mixed ex_fixed) in
  fst (validation_epoch_end ex_criterion ex_mixed ex_fixed) = Ok tt
  ∧ value (image_threshold self') = (1 # 2)%Q
  ∧ value (pixel_threshold self') = (3 # 10)%Q
  ∧ length (seen (image_metrics self')) = 2
  ∧ map prefix (logged self') = ["image_"].
Proof.
  intros self'.
  destruct (validation_epoch_end_fixed_thresholds ex_criterion ex_mixed ex_fixed)
    as (_ & _ & _ & _ & Hdefault & Hrun).
  - reflexivity.
  - destruct (Hdefault "classification" (1 # 2)%Q (3 # 10)%Q) as [Hi Hp]; [reflexivity |].
    destruct (Hrun [(ex_scores, int ex_labels); (ex_scores, int ex_labels)])
      as (Hok & Hseen & _ & _ & _ & Hlog).
    + vm_compute; reflexivity.
    + split; [exact Hok |]. split; [exact Hi |]. split; [exact Hp |].
      subst self'. rewrite Hseen, Hlog. split; vm_compute; reflexivity.
Defined.

(** ** The CSV callback *)

Lemma zip_with_map {A B C D : Type} (f : B → C → D) (g : A → B) (h : A → C) (l : list A) :
  zip_with f (map g l) (map h l) = map (λ x, f (g x) (h x)) l.
Proof. induction l as [| x l IH]; simpl; [done | by rewrite IH]. Qed.

Lemma logical_xor_results (results : ResultSet) :
  logical_xor (true_labels results) (pred_labels results)
  = Ok (map (λ s, xorb (truthy (label_true s)) (label_pred s)) results).
Proof.
  unfold logical_xor, true_labels, pred_labels.
  rewrite !length_map, Nat.eqb_refl. by rewrite zip_with_map.
Qed.

(** The data frame the callback builds holds one row per sample. *)
Lemma data_frame_results (results : ResultSet) :
  (wrong ← logical_xor (true_labels results) (pred_labels results);
   DataFrame (filenames results) (true_labels results)
             (astype_int (pred_labels results)) (astype_int wrong))
  = Ok (map row_of results).
Proof.
  rewrite logical_xor_results. unfold mbind, result_bind, DataFrame.
  unfold filenames, true_labels, pred_labels, astype_int.
  rewrite !length_map, Nat.eqb_refl. simpl.
  f_equal. induction results as [| s results IH]; simpl; [done | by rewrite IH].
Qed.

Lemma on_test_epoch_end_run (trainer : Trainer) (results : ResultSet) (files : Files) :
  on_test_epoch_end trainer results files
  = match log_dir trainer with
    | Some directory => (Ok tt, <[(directory, "results.csv") := map row_of results]> files)
    | None =>
        (Raise (ValueError "trainer.log_dir does not exist to save the results."), files)
    end.
Proof.
  pose proof (data_frame_results results) as Hframe.
  unfold on_test_epoch_end.
  unfold mbind at 1 in Hframe. unfold result_bind in Hframe.
  unfold mbind at 1. unfold M_bind. unfold lift at 1.
  destruct (logical_xor (true_labels results) (pred_labels results)) as [wrong | e];
    [| discriminate].
  unfold mbind at 1. unfold M_bind. unfold lift at 1. rewrite Hframe.
  by destruct (log_dir trainer).
Qed.

(** C4. Without a log directory the test-end hook of the callback raises
    the error that no log directory exists to save the results, and writes no
    file; with a log directory it writes the results, one row per sample, to
    the file [results.csv] in that directory and touches no other file. *)
Theorem on_test_epoch_end_log_dir (trainer : Trainer) (results : ResultSet) (files : Files) :
  (log_dir trainer = None →
   on_test_epoch_end trainer results files
   = (Raise (ValueError "trainer.log_dir does not exist to save the results."), files))
  ∧ (∀ directory, log_dir trainer = Some directory →
       ∃ data_frame,
         on_test_epoch_end trainer results files
         = (Ok tt, <[(directory, "results.csv") := data_frame]> files)
         ∧ length data_frame = length results
         ∧ ∀ path, path ≠ (directory, "results.csv") →
             snd (on_test_epoch_end trainer results files) !! path = files !! path).
Proof.
  rewrite on_test_epoch_end_run. split.
  - by intros ->.
  - intros directory ->. exists (map row_of results).
    split; [done |]. split; [by rewrite length_map |].
    intros path Hpath. simpl. by rewrite lookup_insert_ne.
Qed.

Lemma on_test_epoch_end_log_dir_witness :
  (∃ e, on_test_epoch_end ex_trainer_no_dir ex_results ∅ = (Raise e, ∅))
  ∧ ∃ data_frame,
      on_test_epoch_end ex_trainer ex_results ∅
      = (Ok tt, {[("results/padim", "results.csv") := data_frame]})
      ∧ length data_frame = 2.
Proof.
  split.
  - eexists. apply (proj1 (on_test_epoch_end_log_dir ex_trainer_no_dir ex_results ∅)).
    reflexivity.
  - destruct (proj2 (on_test_epoch_end_log_dir ex_trainer ex_results ∅) "results/padim")
      as (data_frame & Hrun & Hlen & _); [reflexivity |].
    exists data_frame. split; [exact Hrun | exact Hlen].
Defined.

(** C5. In every row of the exported results, [wrong_prediction] is the
    logical XOR of [true_label] and [pred_label] as an integer; for the labels
    0 and 1 of the two classes it is 1 if the true and the predicted label
    differ and 0 if they agree. *)
Theorem wrong_prediction_is_xor (trainer : Trainer) (results : ResultSet) (files : Files)
    (directory : string) :
  log_dir trainer = Some directory →
  ∃ data_frame,
    snd (on_test_epoch_end trainer results files) !! (directory, "results.csv")
    = Some data_frame
    ∧ length data_frame = length results
    ∧ (∀ i s, results !! i = Some s →
         ∃ r, data_frame !! i = Some r ∧ name r = filename s
              ∧ true_label r = label_true s ∧ pred_label r = Z.b2z (label_pred s))
    ∧ ∀ r, r ∈ data_frame →
        wrong_prediction r = Z.b2z (xorb (truthy (true_label r)) (truthy (pred_label r)))
        ∧ (true_label r = 0%Z ∨ true_label r = 1%Z →
           wrong_prediction r = if decide (true_label r = pred_label r) then 0%Z else 1%Z).
Proof.
  intros Hdir. rewrite on_test_epoch_end_run, Hdir. simpl.
  exists (map row_of results). rewrite lookup_insert_eq.
  split; [done |]. split; [by rewrite length_map |]. split.
  - intros i s Hs. exists (row_of s). by rewrite list_lookup_fmap, Hs.
  - intros r Hr. apply list_elem_of_fmap in Hr as (s & -> & _).
    unfold row_of. simpl. split.
    + by destruct (label_pred s).
    + intros [-> | ->]; by destruct (label_pred s).
Qed.

Lemma wrong_prediction_is_xor_witness :
  ∃ data_frame,
    snd (on_test_epoch_end ex_trainer ex_results ∅) !! ("results/padim", "results.csv")
    = Some data_frame
    ∧ map wrong_prediction data_frame = [1%Z; 0%Z].
Proof.
  destruct (wrong_prediction_is_xor ex_trainer ex_results ∅ "results/padim")
    as (data_frame & Hfile & Hlen & Hrows & Hwrong); [reflexivity |].
  exists data_frame. split; [exact Hfile |].
  destruct (Hrows 0 (mkSample "000.png" 1 false)) as (r0 & H0 & _ & Ht0 & Hp0); [reflexivity |].
  destruct (Hrows 1 (mkSample "001.png" 1 true)) as (r1 & H1 & _ & Ht1 & Hp1); [reflexivity |].
  destruct data_frame as [| a [| b [| c l]]]; try discriminate.
  simpl in H0, H1. injection H0 as ->. injection H1 as ->.
  destruct (Hwrong r0) as [_ Hw0]; [left |].
  destruct (Hwrong r1) as [_ Hw1]; [right; left |].
  simpl in *. rewrite Hw0, Hw1 by (right; assumption).
  rewrite Ht0, Hp0, Ht1, Hp1. reflexivity.
Defined.

(** * Further properties of the hooks *)

(** ** Post-processing *)

Lemma post_process_other_keys (outputs outputs' : outputs_t) (key : string) :
  _post_process outputs = Ok outputs' → key ≠ "pred_scores" →
  outputs' !! key = outputs !! key.
Proof.
  unfold _post_process.
  destruct (negb (contains "pred_scores" outputs) && contains "anomaly_maps" outputs);
    [| by intros [= <-]].
  unfold mbind, result_bind.
  destruct (getitem outputs "anomaly_maps") as [am | ?]; [| discriminate].
  destruct (shape0 am) as [n | ?]; [| discriminate].
  destruct (reshape am n) as [r | ?]; [| discriminate].
  destruct (max_dim1 r) as [m | ?]; [| discriminate].
  intros [= <-] Hkey. by rewrite lookup_insert_ne.
Qed.

(** [_post_process] touches no key but [pred_scores], and it never replaces
    scores that are already there. *)
Theorem post_process_frame (outputs outputs' : outputs_t) :
  _post_process outputs = Ok outputs' →
  (∀ key, key ≠ "pred_scores" → outputs' !! key = outputs !! key)
  ∧ (∀ scores, outputs !! "pred_scores" = Some scores →
       outputs' !! "pred_scores" = Some scores)
  ∧ dom outputs ⊆ dom outputs'
  ∧ dom outputs' ⊆ dom outputs ∪ {["pred_scores"]}.
Proof.
  intros Hrun.
  split; [intros key Hkey; by apply post_process_other_keys |].
  revert Hrun. unfold _post_process.
  destruct (contains "pred_scores" outputs) eqn:Hps; simpl.
  - intros [= <-]. repeat split; auto; apply union_subseteq_l.
  - destruct (contains "anomaly_maps" outputs); simpl.
    + unfold mbind, result_bind.
      destruct (getitem outputs "anomaly_maps") as [am | ?]; [| discriminate].
      destruct (shape0 am) as [n | ?]; [| discriminate].
      destruct (reshape am n) as [r | ?]; [| discriminate].
      destruct (max_dim1 r) as [m | ?]; [| discriminate].
      intros [= <-]. apply contains_false in Hps.
      split; [intros scores Hs; congruence |].
      rewrite dom_insert_L. split; [apply union_subseteq_r |].
      by rewrite (comm_L (∪)).
    + intros [= <-]. repeat split; auto; apply union_subseteq_l.
Qed.

Lemma post_process_frame_witness :
  ∃ outputs',
    _post_process ex_output = Ok outputs'
    ∧ outputs' !! "mask" = Some ex_masks
    ∧ outputs' !! "anomaly_maps" = Some ex_maps
    ∧ outputs' !! "label" = Some ex_labels.
Proof.
  exists ex_processed.
  assert (Hrun : _post_process ex_output = Ok ex_processed) by (vm_compute; reflexivity).
  destruct (post_process_frame ex_output ex_processed Hrun) as (Hkeys & _).
  split; [exact Hrun |].
  rewrite !Hkeys by discriminate. repeat split; vm_compute; reflexivity.
Defined.

(** After a call of [_post_process] that returns, [pred_scores] is present
    exactly if [pred_scores] or [anomaly_maps] was present before: an output
    with anomaly maps always leaves with scores. *)
Theorem post_process_scores_present (outputs outputs' : outputs_t) :
  _post_process outputs = Ok outputs' →
  (is_Some (outputs' !! "pred_scores")
   ↔ is_Some (outputs !! "pred_scores") ∨ is_Some (outputs !! "anomaly_maps")).
Proof.
  unfold _post_process.
  destruct (contains "pred_scores" outputs) eqn:Hps; simpl.
  - intros [= <-]. apply contains_true in Hps. tauto.
  - apply contains_false in Hps.
    destruct (contains "anomaly_maps" outputs) eqn:Ham; simpl.
    + apply contains_true in Ham. unfold mbind, result_bind.
      destruct (getitem outputs "anomaly_maps") as [am | ?]; [| discriminate].
      destruct (shape0 am) as [n | ?]; [| discriminate].
      destruct (reshape am n) as [r | ?]; [| discriminate].
      destruct (max_dim1 r) as [m | ?]; [| discriminate].
      intros [= <-]. rewrite lookup_insert_eq. split; eauto.
    + apply contains_false in Ham. intros [= <-]. rewrite Hps, Ham.
      split; [intros [? ?]; discriminate | intros [[? ?] | [? ?]]; discriminate].
Qed.

Lemma post_process_scores_present_witness :
  is_Some (ex_processed !! "pred_scores")
  ↔ is_Some (ex_output !! "pred_scores") ∨ is_Some (ex_output !! "anomaly_maps").
Proof.
  apply (post_process_scores_present ex_output ex_processed).
  vm_compute; reflexivity.
Defined.

(** Anomaly maps without elements make [_post_process] raise when it has to
    derive the scores: a tensor without dimensions has no [shape[0]], a batch
    of no sample cannot be reshaped, and samples without positions have no
    maximum.  No dictionary is returned, so none gets scores. *)
Theorem post_process_empty_maps (outputs : outputs_t) (am : Tensor) :
  outputs !! "pred_scores" = None →
  outputs !! "anomaly_maps" = Some am →
  shape am = [] ∨ numel am = 0 →
  ∃ e, _post_process outputs = Raise e.
Proof.
  intros Hps Ham Hempty.
  assert (Hrun : _post_process outputs
                 = (n ← shape0 am; r ← reshape am n; m ← max_dim1 r;
                    Ok (<["pred_scores" := m]> outputs))).
  { unfold _post_process. apply contains_false in Hps as ->.
    assert (Hc : contains "anomaly_maps" outputs = true) by (apply contains_true; eauto).
    rewrite Hc. simpl. unfold getitem. by rewrite Ham. }
  rewrite Hrun. unfold shape0, mbind, result_bind.
  destruct (shape am) as [| [| n] rest] eqn:Hs; [eauto | |].
  - unfold reshape. simpl. eauto.
  - destruct Hempty as [? | Hnum]; [discriminate |].
    unfold reshape. change (S n =? 0)%nat with false. cbv iota.
    rewrite Hnum. rewrite Nat.Div0.mod_0_l. simpl (0 =? 0)%nat. cbv iota.
    unfold max_dim1. cbn [shape]. rewrite Nat.Div0.div_0_l. simpl. eauto.
Qed.

Lemma post_process_empty_maps_witness :
  (∃ e, _post_process ex_output_no_sample = Raise e)
  ∧ (∃ e, _post_process ex_output_no_position = Raise e).
Proof.
  split.
  - apply (post_process_empty_maps ex_output_no_sample ex_no_sample).
    + vm_compute; reflexivity.
    + vm_compute; reflexivity.
    + right. reflexivity.
  - apply (post_process_empty_maps ex_output_no_position ex_no_position).
    + vm_compute; reflexivity.
    + vm_compute; reflexivity.
    + right. reflexivity.
Defined.

(** ** Prediction *)

(** When the outputs of [validation_step] carry neither [pred_scores] nor
    [anomaly_maps], [predict_step] raises the key error for [pred_scores];
    the module is left as [validation_step] left it. *)
Theorem predict_step_missing_scores {batch : Type} `{Model batch}
    (b : batch) (batch_idx dataloader_idx : nat) (self self' : AnomalibModule)
    (outputs : outputs_t) :
  validation_step b batch_idx self = (Ok outputs, self') →
  outputs !! "pred_scores" = None →
  outputs !! "anomaly_maps" = None →
  predict_step b batch_idx dataloader_idx self = (Raise (KeyError "pred_scores"), self').
Proof.
  intros Hstep Hps Ham.
  unfold predict_step, mbind, M_bind. rewrite Hstep. unfold lift, _post_process.
  apply contains_false in Ham as Hc. rewrite Hc, andb_false_r.
  unfold getitem. by rewrite Hps.
Qed.

Lemma predict_step_missing_scores_witness :
  predict_step (H := ex_model_labels_only) tt 0 0 ex_self
  = (Raise (KeyError "pred_scores"), ex_self).
Proof.
  apply (predict_step_missing_scores (H := ex_model_labels_only) tt 0 0 ex_self ex_self
           ex_labels_only).
  - reflexivity.
  - vm_compute; reflexivity.
  - vm_compute; reflexivity.
Defined.

(** [predict_step] changes the module only through [validation_step], also
    when it raises, and an exception of [validation_step] is passed on.  In
    the outputs it returns, every key but [pred_scores] and [pred_labels] is
    as [validation_step] returned it, and [pred_labels] is a boolean tensor of
    the shape of [pred_scores]. *)
Theorem predict_step_frame {batch : Type} `{Model batch}
    (b : batch) (batch_idx dataloader_idx : nat) (self self' : AnomalibModule)
    (r : result outputs_t) :
  validation_step b batch_idx self = (r, self') →
  snd (predict_step b batch_idx dataloader_idx self) = self'
  ∧ (∀ e, r = Raise e → fst (predict_step b batch_idx dataloader_idx self) = Raise e)
  ∧ (∀ outputs predicted,
       r = Ok outputs →
       fst (predict_step b batch_idx dataloader_idx self) = Ok predicted →
       (∀ key, key ≠ "pred_scores" → key ≠ "pred_labels" →
          predicted !! key = outputs !! key)
       ∧ ∃ scores labels,
           predicted !! "pred_scores" = Some scores
           ∧ predicted !! "pred_labels" = Some labels
           ∧ t_dtype labels = Bool ∧ shape labels = shape scores).
Proof.
  intros Hstep. unfold predict_step, mbind, M_bind. rewrite Hstep.
  destruct r as [outputs | e]; simpl.
  - unfold lift.
    destruct (_post_process outputs) as [outputs' | e] eqn:Hpost; simpl.
    + unfold getitem.
      destruct (outputs' !! "pred_scores") as [scores |] eqn:Hscores; simpl.
      * split; [done |]. split; [discriminate |].
        intros ? predicted [= <-] [= <-].
        split.
        -- intros key Hs Hl. rewrite lookup_insert_ne by done.
           by apply post_process_other_keys.
        -- exists scores, (ge scores (value (image_threshold self'))).
           rewrite lookup_insert_ne by discriminate. by rewrite lookup_insert_eq.
      * split; [done |]. split; discriminate.
    + split; [done |]. split; discriminate.
  - split; [done |]. split; [by intros ? [= <-] | discriminate].
Qed.

Lemma predict_step_frame_witness :
  snd (predict_step (H := ex_model) tt 0 0 ex_self) = ex_self
  ∧ ∀ predicted, fst (predict_step (H := ex_model) tt 0 0 ex_self) = Ok predicted →
      predicted !! "mask" = Some ex_masks.
Proof.
  destruct (predict_step_frame (H := ex_model) tt 0 0 ex_self ex_self (Ok ex_output))
    as (Hself & _ & Hkeys); [reflexivity |].
  split; [exact Hself |].
  intros predicted Hrun.
  destruct (Hkeys ex_output predicted eq_refl Hrun) as [Hframe _].
  rewrite Hframe by discriminate. vm_compute; reflexivity.
Defined.

(** [predict_step] is [test_step] followed by [test_step_end] and the
    labelling: it raises what they raise, and it returns their outputs with
    [pred_labels] added.  [validation_step_end] is the same step end. *)
Theorem predict_step_test_steps {batch : Type} `{Model batch}
    (b : batch) (batch_idx dataloader_idx : nat) (self self' : AnomalibModule)
    (r : result outputs_t) :
  (test_step b batch_idx ≫= test_step_end) self = (r, self') →
  (∀ outputs, validation_step_end outputs = test_step_end outputs)
  ∧ predict_step b batch_idx dataloader_idx self
    = (match r with
       | Ok outputs =>
           match outputs !! "pred_scores" with
           | Some scores =>
               Ok (<["pred_labels" := ge scores (value (image_threshold self'))]> outputs)
           | None => Raise (KeyError "pred_scores")
           end
       | Raise e => Raise e
       end, self').
Proof.
  intros Hsteps. split; [reflexivity |].
  revert Hsteps. unfold predict_step, test_step, test_step_end, mbind, M_bind.
  destruct (validation_step b batch_idx self) as [[outputs | e] self1].
  - unfold lift. destruct (_post_process outputs) as [outputs' | e].
    + intros [= <- <-]. unfold getitem.
      by destruct (outputs' !! "pred_scores").
    + by intros [= <- <-].
  - by intros [= <- <-].
Qed.

Lemma predict_step_test_steps_witness :
  predict_step (H := ex_model) tt 0 0 ex_self
  = (Ok (<["pred_labels" := ge ex_scores (1 # 2)]> ex_processed), ex_self).
Proof.
  destruct (predict_step_test_steps (H := ex_model) tt 0 0 ex_self ex_self (Ok ex_processed))
    as [_ Hrun].
  - vm_compute; reflexivity.
  - rewrite Hrun. vm_compute; reflexivity.
Defined.

(** ** Malformed and empty epochs *)

Lemma collect_outputs_cons {A B : Type} `{Metric A, Metric B}
    (o : outputs_t) (rest : list outputs_t) (image_metric : A) (pixel_metric : B) :
  _collect_outputs (o :: rest) (image_metric, pixel_metric)
  = match image_pair o with
    | Some p =>
        _collect_outputs rest
          (update (fst p) (snd p) image_metric,
           match pixel_pair o with
           | Some q => update (fst q) (snd q) pixel_metric
           | None => pixel_metric
           end)
    | None => (Raise (KeyError (missing_key o)), (image_metric, pixel_metric))
    end.
Proof.
  unfold _collect_outputs, image_pair, pixel_pair, missing_key. simpl.
  unfold mbind, M_bind, lift, getitem, modify, contains, option_bind.
  destruct (o !! "pred_scores") as [scores |]; [| reflexivity].
  destruct (o !! "label") as [label |]; [| reflexivity].
  destruct (o !! "mask") as [mask |], (o !! "anomaly_maps") as [am |]; reflexivity.
Qed.

Lemma well_formed_prefix_pairs (outputs : list outputs_t) (pairs : list pair_t) :
  mapM image_pair outputs = Some pairs →
  well_formed_prefix outputs = outputs ∧ omap image_pair outputs = pairs.
Proof.
  revert pairs. induction outputs as [| o outputs IH]; intros pairs Hpairs.
  - by injection Hpairs as <-.
  - apply mapM_Some_1 in Hpairs. inversion Hpairs as [| ? p ? pairs' Hp Hrest]; subst.
    apply mapM_Some_2 in Hrest. destruct (IH pairs' Hrest) as [Hgood Hmap].
    change (omap image_pair (o :: outputs))
      with (match image_pair o with
            | Some y => y :: omap image_pair outputs
            | None => omap image_pair outputs
            end).
    cbn [well_formed_prefix]. by rewrite Hp, Hgood, Hmap.
Qed.

Lemma well_formed_prefix_stop (outputs : list outputs_t) :
  match outputs !! length (well_formed_prefix outputs) with
  | Some bad => image_pair bad = None
  | None => well_formed_prefix outputs = outputs
  end.
Proof.
  induction outputs as [| o outputs IH]; [reflexivity |]. simpl.
  destruct (image_pair o) eqn:Ho; simpl; [| exact Ho].
  destruct (outputs !! length (well_formed_prefix outputs)); [exact IH | by rewrite IH].
Qed.

Lemma well_formed_prefix_length (outputs : list outputs_t) :
  length (omap image_pair (well_formed_prefix outputs)) = length (well_formed_prefix outputs).
Proof.
  induction outputs as [| o outputs IH]; [reflexivity |]. cbn [well_formed_prefix].
  destruct (image_pair o) eqn:Ho; [| reflexivity].
  change (omap image_pair (o :: well_formed_prefix outputs))
    with (match image_pair o with
          | Some y => y :: omap image_pair (well_formed_prefix outputs)
          | None => omap image_pair (well_formed_prefix outputs)
          end).
  rewrite Ho. simpl. by rewrite IH.
Qed.

(** What [_collect_outputs] does on any epoch: it feeds the leading
    well-formed outputs and stops at the first output that lacks a key. *)
Lemma collect_outputs_any {A B : Type} `{Metric A, Metric B}
    (outputs : list outputs_t) (image_metric : A) (pixel_metric : B) :
  let good := well_formed_prefix outputs in
  _collect_outputs outputs (image_metric, pixel_metric)
  = (match outputs !! length good with
     | Some bad => Raise (KeyError (missing_key bad))
     | None => Ok tt
     end,
     (feed (omap image_pair good) image_metric, feed (omap pixel_pair good) pixel_metric)).
Proof.
  revert image_metric pixel_metric.
  induction outputs as [| o outputs IH]; intros im pm; [reflexivity |].
  rewrite collect_outputs_cons. simpl.
  destruct (image_pair o) as [p |] eqn:Ho; simpl; [| reflexivity].
  rewrite IH. rewrite Ho. simpl. by destruct (pixel_pair o).
Qed.

(** On any epoch, [_collect_outputs] feeds the two aggregators the pairs of
    the outputs that precede the first output lacking [pred_scores] or
    [label], and nothing after them.  If there is such an output it raises the
    key error of the lookup that fails ([pred_scores] is looked up before
    [label]) and the aggregators keep what they were fed; otherwise it
    returns. *)
Theorem collect_outputs_first_malformed {A B : Type} `{Metric A, Metric B}
    (outputs : list outputs_t) (image_metric : A) (pixel_metric : B) :
  let good := well_formed_prefix outputs in
  snd (_collect_outputs outputs (image_metric, pixel_metric))
  = (feed (omap image_pair good) image_metric, feed (omap pixel_pair good) pixel_metric)
  ∧ length (omap image_pair good) = length good
  ∧ match outputs !! length good with
    | Some bad =>
        (bad !! "pred_scores" = None ∨ bad !! "label" = None)
        ∧ fst (_collect_outputs outputs (image_metric, pixel_metric))
          = Raise (KeyError (missing_key bad))
    | None =>
        good = outputs
        ∧ fst (_collect_outputs outputs (image_metric, pixel_metric)) = Ok tt
    end.
Proof.
  intros good. rewrite collect_outputs_any. fold good. simpl.
  split; [reflexivity |]. split.
  - apply well_formed_prefix_length.
  - pose proof (well_formed_prefix_stop outputs) as Hstop. fold good in Hstop.
    destruct (outputs !! length good) as [bad |]; [| done].
    split; [| reflexivity]. unfold image_pair in Hstop.
    destruct (bad !! "pred_scores"); simpl in *; [| by left].
    destruct (bad !! "label"); simpl in *; [discriminate | by right].
Qed.

Lemma collect_outputs_first_malformed_witness :
  snd (_collect_outputs ex_unscored (mkThreshold (1 # 2) [], mkThreshold (1 # 2) []))
  = (mkThreshold (1 # 2) [(ex_scores, int ex_labels)], mkThreshold (1 # 2) [])
  ∧ fst (_collect_outputs ex_unscored (mkThreshold (1 # 2) [], mkThreshold (1 # 2) []))
    = Raise (KeyError "pred_scores").
Proof.
  pose proof (collect_outputs_first_malformed ex_unscored
                (mkThreshold (1 # 2) []) (mkThreshold (1 # 2) [])) as (Hstate & _ & Hstop).
  split.
  - rewrite Hstate. vm_compute; reflexivity.
  - change (ex_unscored !! length (well_formed_prefix ex_unscored)) with (Some ex_output)
      in Hstop.
    destruct Hstop as [_ Hraise]. rewrite Hraise. vm_compute; reflexivity.
Defined.

Section AnyEpoch.

Variable criterion : list pair_t → Q.

(** What [_compute_adaptive_threshold] does on any epoch. *)
Lemma compute_adaptive_threshold_any (outputs : list outputs_t) (self : AnomalibModule) :
  let good := well_formed_prefix outputs in
  let image0 := feed (omap image_pair good) (image_threshold self) in
  let pixel0 := feed (omap pixel_pair good) (pixel_threshold self) in
  let image := compute criterion image0 in
  _compute_adaptive_threshold criterion outputs self
  = match outputs !! length good with
    | Some bad => (Raise (KeyError (missing_key bad)), set_thresholds (image0, pixel0) self)
    | None =>
        match outputs with
        | [] => (Raise (IndexError "list index out of range"),
                 set_image_threshold image (set_thresholds (image0, pixel0) self))
        | o :: _ =>
            let pixel := if carries_both o then compute criterion pixel0
                         else set_value (value image) pixel0 in
            (Ok tt,
             mkModule (task self) (adaptive_threshold self) image pixel
                      (set_F1_threshold (value image) (image_metrics self))
                      (set_F1_threshold (value pixel) (pixel_metrics self))
                      (logged self))
        end
    end.
Proof.
  intros good image0 pixel0 image.
  unfold _compute_adaptive_threshold.
  unfold mbind at 1. unfold M_bind. unfold zoom, thresholds.
  rewrite collect_outputs_any. fold good image0 pixel0.
  destruct (outputs !! length good) as [bad |]; [reflexivity |].
  unfold mbind, M_bind, modify, lift, first.
  destruct outputs as [| o rest]; [reflexivity |].
  change (contains "mask" o && contains "anomaly_maps" o) with (carries_both o).
  by destruct (carries_both o).
Qed.

(** What [test_epoch_end] does on any epoch. *)
Lemma test_epoch_end_any (outputs : list outputs_t) (self : AnomalibModule) :
  let good := well_formed_prefix outputs in
  let image := feed (omap image_pair good) (image_metrics self) in
  let pixel := feed (omap pixel_pair good) (pixel_metrics self) in
  test_epoch_end outputs self
  = match outputs !! length good with
    | Some bad => (Raise (KeyError (missing_key bad)), set_metrics (image, pixel) self)
    | None =>
        (Ok tt,
         mkModule (task self) (adaptive_threshold self)
                  (image_threshold self) (pixel_threshold self) image pixel
                  (logged self ++ image
                     :: (if String.eqb (task self) "segmentation" then [pixel] else [])))
    end.
Proof.
  intros good image pixel.
  unfold test_epoch_end.
  unfold mbind at 1. unfold M_bind. unfold zoom, metrics.
  rewrite collect_outputs_any. fold good image pixel.
  destruct (outputs !! length good) as [bad |]; [reflexivity |].
  unfold _log_metrics, mbind, M_bind, gets, log_dict, modify. simpl.
  destruct (String.eqb (task self) "segmentation"); simpl; [| reflexivity].
  by rewrite <- app_assoc.
Qed.

End AnyEpoch.


(** On an epoch with an output that lacks [pred_scores] or [label],
    [_compute_adaptive_threshold] raises the key error before any threshold is
    computed: both threshold values and both F1 cut-offs stay as they were,
    but the aggregators keep the pairs of the outputs that came before. *)
Theorem compute_adaptive_threshold_malformed (criterion : list pair_t → Q)
    (outputs : list outputs_t) (bad : outputs_t) (self : AnomalibModule) :
  let good := well_formed_prefix outputs in
  outputs !! length good = Some bad →
  let self' := snd (_compute_adaptive_threshold criterion outputs self) in
  fst (_compute_adaptive_threshold criterion outputs self) = Raise (KeyError (missing_key bad))
  ∧ value (image_threshold self') = value (image_threshold self)
  ∧ value (pixel_threshold self') = value (pixel_threshold self)
  ∧ fed (image_threshold self') = fed (image_threshold self) ++ omap image_pair good
  ∧ fed (pixel_threshold self') = fed (pixel_threshold self) ++ omap pixel_pair good
  ∧ image_metrics self' = image_metrics self
  ∧ pixel_metrics self' = pixel_metrics self.
Proof.
  intros good Hbad self'. subst self'. rewrite compute_adaptive_threshold_any.
  fold good. rewrite Hbad. simpl. rewrite !fed_feed. by repeat split.
Qed.

Lemma compute_adaptive_threshold_malformed_witness :
  let self' := snd (_compute_adaptive_threshold ex_criterion ex_unscored ex_self) in
  fst (_compute_adaptive_threshold ex_criterion ex_unscored ex_self)
  = Raise (KeyError "pred_scores")
  ∧ value (image_threshold self') = (1 # 2)%Q
  ∧ length (fed (image_threshold self')) = 1.
Proof.
  intros self'.
  destruct (compute_adaptive_threshold_malformed ex_criterion ex_unscored ex_output ex_self)
    as (Hraise & Himage & _ & Hfed & _).
  - vm_compute; reflexivity.
  - subst self'. rewrite Hraise, Himage, Hfed. repeat split; vm_compute; reflexivity.
Defined.

(** Whatever the epoch, and also when it raises,
    [_compute_adaptive_threshold] changes only the two thresholds and the two
    F1 cut-offs: the task, the mode, the pairs the metric collections have
    seen, their prefixes and the log stay as they were. *)
Theorem compute_adaptive_threshold_frame (criterion : list pair_t → Q)
    (outputs : list outputs_t) (self : AnomalibModule) :
  let self' := snd (_compute_adaptive_threshold criterion outputs self) in
  task self' = task self
  ∧ adaptive_threshold self' = adaptive_threshold self
  ∧ seen (image_metrics self') = seen (image_metrics self)
  ∧ seen (pixel_metrics self') = seen (pixel_metrics self)
  ∧ prefix (image_metrics self') = prefix (image_metrics self)
  ∧ prefix (pixel_metrics self') = prefix (pixel_metrics self)
  ∧ logged self' = logged self.
Proof.
  intros self'. subst self'. rewrite compute_adaptive_threshold_any.
  destruct (outputs !! length (well_formed_prefix outputs)); [by repeat split |].
  destruct outputs; by repeat split.
Qed.

(** ** Validation in adaptive mode *)

(** In adaptive mode a validation epoch of well-formed outputs feeds every
    output twice, to the threshold aggregators and to the metric collections,
    and the collections are logged with their F1 cut-offs already set to the
    thresholds computed in this epoch. *)
Theorem validation_epoch_end_adaptive (criterion : list pair_t → Q)
    (o : outputs_t) (rest : list outputs_t) (pairs : list pair_t) (self : AnomalibModule) :
  adaptive_threshold self = true →
  mapM image_pair (o :: rest) = Some pairs →
  ∃ self',
    validation_epoch_end criterion (o :: rest) self = (Ok tt, self')
    ∧ fed (image_threshold self') = fed (image_threshold self) ++ pairs
    ∧ value (image_threshold self') = criterion (fed (image_threshold self) ++ pairs)
    ∧ seen (image_metrics self') = seen (image_metrics self) ++ pairs
    ∧ seen (pixel_metrics self') = seen (pixel_metrics self) ++ omap pixel_pair (o :: rest)
    ∧ F1_threshold (image_metrics self') = value (image_threshold self')
    ∧ F1_threshold (pixel_metrics self') = value (pixel_threshold self')
    ∧ logged self'
      = logged self ++ image_metrics self'
          :: (if String.eqb (task self) "segmentation" then [pixel_metrics self'] else []).
Proof.
  intros Hadaptive Hpairs.
  rewrite validation_epoch_end_unfold, Hadaptive.
  unfold mbind at 1. unfold M_bind.
  rewrite (compute_adaptive_threshold_run criterion o rest pairs self Hpairs).
  cbv zeta. rewrite (test_epoch_end_run (o :: rest) pairs _ Hpairs).
  eexists. split; [reflexivity |].
  cbn [image_threshold pixel_threshold image_metrics pixel_metrics logged task].
  rewrite !seen_feed, !fed_feed. by repeat split.
Qed.

Lemma validation_epoch_end_adaptive_witness :
  ∃ self',
    validation_epoch_end ex_criterion ex_mixed ex_self = (Ok tt, self')
    ∧ F1_threshold (image_metrics self') = value (image_threshold self')
    ∧ map F1_threshold (logged self') = [(9 # 10)%Q; (1 # 10)%Q].
Proof.
  destruct (validation_epoch_end_adaptive ex_criterion ex_processed [ex_scored]
              [(ex_scores, int ex_labels); (ex_scores, int ex_labels)] ex_self)
    as (self' & Hrun & _ & _ & _ & _ & Himage & _ & _).
  - reflexivity.
  - vm_compute; reflexivity.
  - exists self'. split; [exact Hrun |]. split; [exact Himage |].
    assert (Hself : self' = snd (validation_epoch_end ex_criterion ex_mixed ex_self))
      by (unfold ex_mixed; by rewrite Hrun).
    rewrite Hself. vm_compute; reflexivity.
Defined.



(** ** What the epoch hooks keep *)

Lemma extends_refl (self : AnomalibModule) : extends self self.
Proof. by repeat split. Qed.

Lemma extends_trans (a b c : AnomalibModule) : extends a b → extends b c → extends a c.
Proof.
  intros (? & ? & ? & ? & ?) (? & ? & ? & ? & ?).
  repeat split; etrans; eauto.
Qed.

Lemma test_epoch_end_extends (outputs : list outputs_t) (self : AnomalibModule) :
  extends self (snd (test_epoch_end outputs self)).
Proof.
  rewrite test_epoch_end_any.
  destruct (outputs !! length (well_formed_prefix outputs)); simpl;
    unfold extends; simpl; rewrite !seen_feed; simpl;
    repeat split; try done; by apply prefix_app_r.
Qed.

Lemma compute_adaptive_threshold_extends (criterion : list pair_t → Q)
    (outputs : list outputs_t) (self : AnomalibModule) :
  extends self (snd (_compute_adaptive_threshold criterion outputs self)).
Proof.
  rewrite compute_adaptive_threshold_any.
  destruct (outputs !! length (well_formed_prefix outputs)); simpl.
  - unfold extends; simpl; rewrite !fed_feed; simpl.
    repeat split; try done; by apply prefix_app_r.
  - destruct outputs as [| o rest]; simpl.
    + unfold extends; simpl. by repeat split.
    + unfold extends; simpl. rewrite !fed_feed.
      destruct (carries_both o); simpl; repeat split; try done; by apply prefix_app_r.
Qed.

(** The epoch hooks only ever append: whatever the epoch and the mode, and
    also when a hook raises, the pairs the threshold aggregators and the
    metric collections were fed before and the entries logged before are
    still there afterwards, in the same order. *)
Theorem epoch_end_append_only (criterion : list pair_t → Q)
    (outputs : list outputs_t) (self : AnomalibModule) :
  extends self (snd (test_epoch_end outputs self))
  ∧ extends self (snd (validation_epoch_end criterion outputs self)).
Proof.
  split; [apply test_epoch_end_extends |].
  rewrite validation_epoch_end_unfold.
  destruct (adaptive_threshold self); [| apply test_epoch_end_extends].
  unfold mbind, M_bind.
  pose proof (compute_adaptive_threshold_extends criterion outputs self) as Hfirst.
  destruct (_compute_adaptive_threshold criterion outputs self) as [[[] | e] self1];
    simpl in *; [| exact Hfirst].
  eapply extends_trans; [exact Hfirst | apply test_epoch_end_extends].
Qed.

(** [test_epoch_end] never changes an F1 cut-off, so in fixed mode the
    configured default thresholds never reach the F1 metrics: a module built
    with [adaptive_threshold] off keeps the cut-off one half of its
    construction through every validation epoch, and logs it. *)
Theorem fixed_mode_F1_cut_offs (criterion : list pair_t → Q) (task : string)
    (default_image default_pixel : Q) (outputs : list outputs_t) (self : AnomalibModule) :
  F1_threshold (image_metrics (snd (test_epoch_end outputs self)))
  = F1_threshold (image_metrics self)
  ∧ F1_threshold (pixel_metrics (snd (test_epoch_end outputs self)))
    = F1_threshold (pixel_metrics self)
  ∧ let self' := snd (validation_epoch_end criterion outputs
                        (__init__ task false default_image default_pixel)) in
    F1_threshold (image_metrics self') = (1 # 2)%Q
    ∧ F1_threshold (pixel_metrics self') = (1 # 2)%Q
    ∧ Forall (λ c, F1_threshold c = (1 # 2)%Q) (logged self').
Proof.
  assert (Htest : ∀ s,
    F1_threshold (image_metrics (snd (test_epoch_end outputs s))) = F1_threshold (image_metrics s)
    ∧ F1_threshold (pixel_metrics (snd (test_epoch_end outputs s)))
      = F1_threshold (pixel_metrics s)).
  { intros s. rewrite test_epoch_end_any.
    destruct (outputs !! length (well_formed_prefix outputs)); simpl;
      rewrite !seen_feed; by split. }
  destruct (Htest self) as [Himage Hpixel].
  split; [exact Himage |]. split; [exact Hpixel |].
  intros self'. subst self'.
  rewrite validation_epoch_end_fixed by reflexivity.
  destruct (Htest (__init__ task false default_image default_pixel)) as [Hi Hp].
  split; [exact Hi |]. split; [exact Hp |].
  rewrite test_epoch_end_any.
  destruct (outputs !! length (well_formed_prefix outputs)); simpl; [constructor |].
  rewrite !seen_feed. simpl.
  destruct (String.eqb task "segmentation"); repeat constructor.
Qed.

(** ** Prediction after validation *)

Lemma predict_step_run {batch : Type} `{Model batch}
    (b : batch) (batch_idx dataloader_idx : nat) (self : AnomalibModule)
    (outputs outputs' : outputs_t) (scores : Tensor) :
  validation_step b batch_idx self = (Ok outputs, self) →
  _post_process outputs = Ok outputs' →
  outputs' !! "pred_scores" = Some scores →
  predict_step b batch_idx dataloader_idx self
  = (Ok (<["pred_labels" := ge scores (value (image_threshold self))]> outputs'), self).
Proof.
  intros Hstep Hpost Hscores.
  unfold predict_step, mbind, M_bind. rewrite Hstep.
  unfold lift. rewrite Hpost. unfold getitem. by rewrite Hscores.
Qed.

(** A prediction that follows a validation epoch is labelled against the
    threshold that epoch left: in adaptive mode the value the criterion chose
    for the pairs of the epoch (added to the pairs fed before), in fixed mode
    the image threshold the module had, whatever the epoch was.  Stated for a
    model whose [validation_step] leaves the module as it is. *)
Theorem predict_after_validation {batch : Type} `{Model batch}
    (criterion : list pair_t → Q) (epoch : list outputs_t) (self : AnomalibModule)
    (b : batch) (batch_idx dataloader_idx : nat)
    (outputs outputs' : outputs_t) (scores : Tensor) :
  let self' := snd (validation_epoch_end criterion epoch self) in
  validation_step b batch_idx self' = (Ok outputs, self') →
  _post_process outputs = Ok outputs' →
  outputs' !! "pred_scores" = Some scores →
  (adaptive_threshold self = true →
   ∀ pairs, epoch ≠ [] → mapM image_pair epoch = Some pairs →
     predict_step b batch_idx dataloader_idx self'
     = (Ok (<["pred_labels" := ge scores (criterion (fed (image_threshold self) ++ pairs))]>
              outputs'), self'))
  ∧ (adaptive_threshold self = false →
     predict_step b batch_idx dataloader_idx self'
     = (Ok (<["pred_labels" := ge scores (value (image_threshold self))]> outputs'), self')).
Proof.
  intros self' Hstep Hpost Hscores.
  rewrite (predict_step_run b batch_idx dataloader_idx self' outputs outputs' scores)
    by done.
  split.
  - intros Hadaptive pairs Hne Hpairs.
    destruct epoch as [| o rest]; [done |].
    assert (Hvalue : value (image_threshold self')
                     = criterion (fed (image_threshold self) ++ pairs)).
    { subst self'. rewrite validation_epoch_end_unfold, Hadaptive.
      unfold mbind, M_bind.
      rewrite (compute_adaptive_threshold_run criterion o rest pairs self Hpairs).
      cbv zeta. rewrite (test_epoch_end_run (o :: rest) pairs _ Hpairs).
      simpl. by rewrite fed_feed. }
    by rewrite Hvalue.
  - intros Hfixed.
    assert (Hvalue : image_threshold self' = image_threshold self).
    { subst self'. rewrite validation_epoch_end_fixed by done.
      by destruct (test_epoch_end_frame epoch self) as (_ & _ & -> & _). }
    by rewrite Hvalue.
Qed.

Lemma predict_after_validation_witness :
  let self' := snd (validation_epoch_end ex_criterion ex_mixed ex_self) in
  predict_step (H := ex_model_scored) tt 0 0 self'
  = (Ok (<["pred_labels" := mkTensor Bool [2] [1; 0]%Q]> ex_scored), self')
  ∧ predict_step (H := ex_model_scored) tt 0 0
      (snd (validation_epoch_end ex_criterion ex_mixed ex_fixed))
    = (Ok (<["pred_labels" := mkTensor Bool [2] [1; 1]%Q]> ex_scored),
       snd (validation_epoch_end ex_criterion ex_mixed ex_fixed)).
Proof.
  intros self'. split.
  - destruct (predict_after_validation (H := ex_model_scored) ex_criterion ex_mixed ex_self
                tt 0 0 ex_scored ex_scored ex_scores) as [Hadaptive _].
    + reflexivity.
    + vm_compute; reflexivity.
    + vm_compute; reflexivity.
    + subst self'.
      rewrite (Hadaptive eq_refl [(ex_scores, int ex_labels); (ex_scores, int ex_labels)]).
      * reflexivity.
      * discriminate.
      * vm_compute; reflexivity.
  - destruct (predict_after_validation (H := ex_model_scored) ex_criterion ex_mixed ex_fixed
                tt 0 0 ex_scored ex_scored ex_scores) as [_ Hfixed].
    + reflexivity.
    + vm_compute; reflexivity.
    + vm_compute; reflexivity.
    + rewrite (Hfixed eq_refl). reflexivity.
Defined.

(** ** The exported file *)

(** The callback overwrites: exporting again to the same directory leaves
    exactly the files a single export of the later results would have left,
    whatever the earlier results were; and an export adds no path but
    [results.csv] of the log directory. *)
Theorem on_test_epoch_end_overwrites (trainer : Trainer) (earlier later : ResultSet)
    (files : Files) (directory : string) :
  log_dir trainer = Some directory →
  snd (on_test_epoch_end trainer later (snd (on_test_epoch_end trainer earlier files)))
  = snd (on_test_epoch_end trainer later files)
  ∧ dom (snd (on_test_epoch_end trainer later files))
    = {[(directory, "results.csv")]} ∪ dom files.
Proof.
  intros Hdir. rewrite !on_test_epoch_end_run, Hdir. simpl.
  split; [apply insert_insert_eq | apply dom_insert_L].
Qed.

Lemma on_test_epoch_end_overwrites_witness :
  snd (on_test_epoch_end ex_trainer ex_results
         (snd (on_test_epoch_end ex_trainer [] ∅)))
  = snd (on_test_epoch_end ex_trainer ex_results ∅).
Proof.
  apply (on_test_epoch_end_overwrites ex_trainer [] ex_results ∅ "results/padim").
  reflexivity.
Defined.

Lemma wrong_count (results : ResultSet) :
  foldr Z.add 0%Z (map wrong_prediction (map row_of results))
  = Z.of_nat (length (filter (λ s, truthy (label_true s) ≠ label_pred s) results)).
Proof.
  induction results as [| s results IH]; [reflexivity |].
  rewrite filter_cons. cbn [map foldr]. rewrite IH.
  unfold row_of at 1. cbn [wrong_prediction].
  case_decide as Hwrong;
    destruct (truthy (label_true s)), (label_pred s); try done; simpl length; simpl; lia.
Qed.

(** In the exported file the columns [pred_label] and [wrong_prediction]
    hold only 0 and 1, and the sum of the [wrong_prediction] column is the
    number of samples whose true label (as a truth value) and predicted label
    differ. *)
Theorem exported_columns (trainer : Trainer) (results : ResultSet) (files : Files)
    (directory : string) :
  log_dir trainer = Some directory →
  ∃ data_frame,
    snd (on_test_epoch_end trainer results files) !! (directory, "results.csv")
    = Some data_frame
    ∧ Forall (λ r, (pred_label r = 0 ∨ pred_label r = 1)%Z
                   ∧ (wrong_prediction r = 0 ∨ wrong_prediction r = 1)%Z) data_frame
    ∧ foldr Z.add 0%Z (map wrong_prediction data_frame)
      = Z.of_nat (length (filter (λ s, truthy (label_true s) ≠ label_pred s) results)).
Proof.
  intros Hdir. rewrite on_test_epoch_end_run, Hdir. simpl.
  exists (map row_of results). rewrite lookup_insert_eq.
  split; [done |]. split; [| apply wrong_count].
  apply Forall_forall. intros r Hr. apply list_elem_of_fmap in Hr as (s & -> & _).
  unfold row_of. simpl.
  destruct (label_pred s), (truthy (label_true s)); simpl; auto.
Qed.

Lemma exported_columns_witness :
  ∃ data_frame,
    snd (on_test_epoch_end ex_trainer ex_results ∅) !! ("results/padim", "results.csv")
    = Some data_frame
    ∧ foldr Z.add 0%Z (map wrong_prediction data_frame) = 1%Z.
Proof.
  destruct (exported_columns ex_trainer ex_results ∅ "results/padim")
    as (data_frame & Hfile & _ & Hsum); [reflexivity |].
  exists data_frame. split; [exact Hfile |]. rewrite Hsum. reflexivity.
Defined.
